(** * knock-knock: a shallow embedding of [knock-knock.js]

    The dispatcher keeps a registry of named schemas, resolves one schema per
    request and runs its login or auth capability.  The embedding below
    follows the JavaScript source definition by definition:

    - JavaScript values are the inductive [JsVal]; objects live in a heap and
      are handled through references, so that aliasing and reference
      identity are those of the source;
    - code that reads or writes [this], [req], [res] or an object is a
      computation in the state-and-exception monad [M] over a [World];
    - the bodies of schema methods and of response hooks are the plugin
      contract of the library: they are a parameter [impl] of the model. *)

From Stdlib Require Import ZArith String Bool.
From stdpp Require Import base option decidable list gmap strings.

Local Open Scope string_scope.
Local Open Scope list_scope.

(** ** JavaScript values *)

Inductive JsVal : Type :=
  | VUndefined
  | VNull
  | VBool (b : bool)
  | VNum (n : Z)
  | VStr (s : string)
  | VFun (f : nat)
  | VRef (l : nat).

Global Instance JsVal_eq_dec : EqDecision JsVal.
Proof. solve_decision. Defined.

(** Results of [typeof]. *)
Inductive JsType : Type :=
  | TyUndefined | TyObject | TyBoolean | TyNumber | TyString | TyFunction.

Global Instance JsType_eq_dec : EqDecision JsType.
Proof. solve_decision. Defined.

Definition typeof (v : JsVal) : JsType :=
  match v with
  | VUndefined => TyUndefined
  | VNull => TyObject
  | VBool _ => TyBoolean
  | VNum _ => TyNumber
  | VStr _ => TyString
  | VFun _ => TyFunction
  | VRef _ => TyObject
  end.

(** ToBoolean: [undefined], [null], [false], [0] and the empty string are
    falsy (numbers are integers here, so there is no NaN). *)
Definition truthy (v : JsVal) : bool :=
  match v with
  | VUndefined | VNull => false
  | VBool b => b
  | VNum n => negb (Z.eqb n 0)
  | VStr s => negb (String.eqb s "")
  | VFun _ | VRef _ => true
  end.

(** [a || b] on values (both operands already evaluated: every use in the
    source has operands without side effects). *)
Definition js_or (a b : JsVal) : JsVal := if truthy a then a else b.

(** [a === b]: without NaN, strict equality is equality of values, and two
    references are equal when they point to the same object. *)
Definition strict_eq (a b : JsVal) : bool := bool_decide (a = b).

(** ** Exceptions and completions *)

(** What a [throw] carries: the [AssertionError] of [assert], the
    [TypeError] of the runtime, or any value thrown by user code. *)
Inductive Exn : Type :=
  | AssertionError
  | TypeError
  | Thrown (v : JsVal).

Global Instance Exn_eq_dec : EqDecision Exn.
Proof. solve_decision. Defined.

Inductive Completion (A : Type) : Type :=
  | Return (a : A)
  | Throw (e : Exn).
Arguments Return {A} a.
Arguments Throw {A} e.

Definition cbind {A B} (c : Completion A) (k : A -> Completion B) : Completion B :=
  match c with
  | Return a => k a
  | Throw e => Throw e
  end.

(** ** Objects and the heap *)

(** Modelled from the spec: the module [./UnauthorizedError] is required by
    the source but is not part of it.  The spec gives its attributes: a
    human-readable message, the schema involved and an optional wrapped
    cause, in the order of the constructor calls of the source. *)
Inductive ObjClass : Type :=
  | PlainObject
  | UnauthorizedError (message : string) (schema : JsVal) (cause : option Exn).

(** An object: its class, its string-keyed properties, and the property
    keyed by the symbol [KnockKnock.symbolDefault]. *)
Record Obj : Type := mkObj {
  o_class : ObjClass;
  o_props : gmap string JsVal;
  o_symbolDefault : JsVal
}.

(** The heap: a reference is an index, allocation appends. *)
Abbreviation Heap := (list Obj).

Definition alloc (h : Heap) (o : Obj) : nat * Heap := (List.length h, h ++ [o]).

Definition obj_prop (h : Heap) (l : nat) (k : string) : JsVal :=
  default VUndefined (o ← h !! l; o_props o !! k).

Definition obj_symbolDefault (h : Heap) (l : nat) : JsVal :=
  default VUndefined (o_symbolDefault <$> h !! l).

(** [typeof obj[k] === 'function'] on an object reference. *)
Definition callable (h : Heap) (l : nat) (k : string) : bool :=
  bool_decide (typeof (obj_prop h l k) = TyFunction).

(** [v[k]]: reading a property of [undefined] or [null] is a [TypeError];
    the primitives and the functions of the model carry no property. *)
Definition get_prop (h : Heap) (v : JsVal) (k : string) : Completion JsVal :=
  match v with
  | VUndefined | VNull => Throw TypeError
  | VRef l => Return (obj_prop h l k)
  | _ => Return VUndefined
  end.

Definition set_obj_prop (k : string) (v : JsVal) (o : Obj) : Obj :=
  {| o_class := o_class o; o_props := <[k := v]> (o_props o);
     o_symbolDefault := o_symbolDefault o |}.

Definition set_obj_symbolDefault (v : JsVal) (o : Obj) : Obj :=
  {| o_class := o_class o; o_props := o_props o; o_symbolDefault := v |}.

(** [err instanceof UnauthorizedError] *)
Definition instanceof_UnauthorizedError (h : Heap) (e : Exn) : bool :=
  match e with
  | Thrown (VRef l) =>
      match o_class <$> h !! l with
      | Some (UnauthorizedError _ _ _) => true
      | _ => false
      end
  | _ => false
  end.

(** ** The capability model: [schemaInterface] *)

Inductive CapType : Type := login_t | auth_t.

Global Instance CapType_eq_dec : EqDecision CapType.
Proof. solve_decision. Defined.

Module schemaInterface.

(** [schemaInterface.interface] *)
Definition interface (type : CapType) : string :=
  match type with
  | login_t => "knockLogin"
  | auth_t => "knockAuth"
  end.

(** [Object.values(schemaInterface.interface)] *)
Definition interface_values : list string := ["knockLogin"; "knockAuth"].

(** The key of a capability type, as in [Object.entries]. *)
Definition type_key (type : CapType) : string :=
  match type with
  | login_t => "login"
  | auth_t => "auth"
  end.

Definition hasRequiredFunction (h : Heap) (schema : JsVal) (type : CapType)
  : Completion bool :=
  cbind (get_prop h schema (interface type))
        (fun f => Return (bool_decide (typeof f = TyFunction))).

Definition optional (type : CapType) : list string :=
  match type with
  | login_t => ["login"; "loginResponse"; "oauthLogin"; "oauthCallback"]
  | auth_t => ["create"; "auth"; "authResponse"; "revoke"]
  end.

Definition lazy (type : CapType) : list string :=
  match type with
  | login_t => ["login"; "oauthLogin"; "oauthCallback"]
  | auth_t => ["auth"; "revoke"]
  end.

End schemaInterface.

(** ** Options *)

Record KnockOption : Type := mkOptionObject {
  globalLoginResponse : JsVal;
  globalAuthResponse : JsVal;
  throwUnauthorizedError : JsVal;
  (** the properties of the object that cannot be written: all three for a
      frozen object, none for an ordinary one *)
  readonly : list string
}.

(** An ordinary option object: every property can be written. *)
Definition mkOption (globalLoginResponse globalAuthResponse throwUnauthorizedError : JsVal)
  : KnockOption :=
  mkOptionObject globalLoginResponse globalAuthResponse throwUnauthorizedError [].

(** [option.k = new] in [normalizeOption], which is not strict code: the
    write to a read-only property is dropped silently and the property
    keeps its value [old]. *)
Definition assign (option : KnockOption) (k : string) (old new : JsVal) : JsVal :=
  if bool_decide (k ∈ readonly option) then old else new.

Definition normalize_response (g : JsVal) : JsVal :=
  if truthy g && bool_decide (typeof g = TyFunction) then g else VUndefined.

(** [normalizeOption]: [None] is a missing argument, replaced by [{}].  The
    function writes into the object it is given and returns that object. *)
Definition normalizeOption (option : option KnockOption) : KnockOption :=
  let option :=
    match option with
    | Some o => o
    | None => mkOption VUndefined VUndefined VUndefined
    end in
  {| throwUnauthorizedError :=
       assign option "throwUnauthorizedError" (throwUnauthorizedError option)
              (js_or (throwUnauthorizedError option) (VBool true));
     globalLoginResponse :=
       assign option "globalLoginResponse" (globalLoginResponse option)
              (normalize_response (globalLoginResponse option));
     globalAuthResponse :=
       assign option "globalAuthResponse" (globalAuthResponse option)
              (normalize_response (globalAuthResponse option));
     readonly := readonly option |}.

(** ** The registry: a JavaScript [Map] in insertion order *)

Abbreviation SchemaMap := (list (JsVal * nat)).

Definition Map_get (m : SchemaMap) (k : JsVal) : JsVal :=
  match List.find (fun p => bool_decide (p.1 = k)) m with
  | Some (_, s) => VRef s
  | None => VUndefined
  end.

(** [Map.prototype.set]: an existing key keeps its position. *)
Fixpoint Map_set (m : SchemaMap) (k : JsVal) (s : nat) : SchemaMap :=
  match m with
  | [] => [(k, s)]
  | (k', s') :: m' =>
      if bool_decide (k' = k) then (k, s) :: m' else (k', s') :: Map_set m' k s
  end.

Definition Map_delete (m : SchemaMap) (k : JsVal) : SchemaMap :=
  List.filter (fun p => negb (bool_decide (p.1 = k))) m.

Definition Map_values (m : SchemaMap) : list JsVal := List.map (fun p => VRef p.2) m.

Definition Map_size (m : SchemaMap) : nat := List.length m.

(** [Array.prototype.some] and [Array.prototype.find] with a callback that
    may throw. *)
Fixpoint js_some {A} (f : A -> Completion bool) (l : list A) : Completion bool :=
  match l with
  | [] => Return false
  | x :: l' => cbind (f x) (fun b => if b then Return true else js_some f l')
  end.

Fixpoint js_find (f : JsVal -> Completion bool) (l : list JsVal) : Completion JsVal :=
  match l with
  | [] => Return VUndefined
  | x :: l' => cbind (f x) (fun b => if b then Return x else js_find f l')
  end.

(** ** The state of a [KnockKnock] instance *)

Record KnockKnock : Type := mkKnockKnock {
  schemas : SchemaMap;
  defaultSchemasCache : gmap string JsVal;
  options : KnockOption
}.

(** [new KnockKnock(option)] *)
Definition constructor (option : option KnockOption) : KnockKnock :=
  {| schemas := []; defaultSchemasCache := ∅; options := normalizeOption option |}.

(** The getter [valid]. *)
Definition valid (kk : KnockKnock) (h : Heap) : Completion bool :=
  if negb (0 <? Map_size (schemas kk))%nat then Return false
  else js_some (fun i => schemaInterface.hasRequiredFunction h i login_t)
               (Map_values (schemas kk)).

(** ** Requests, responses, worlds *)

Record Req : Type := mkReq {
  params : gmap string JsVal;
  query : gmap string JsVal;
  cookies : gmap string JsVal;
  body : gmap string JsVal;
  user : JsVal;
  unauthorizedError : JsVal
}.

Record Res : Type := mkRes { headersSent : JsVal }.

Definition field (m : gmap string JsVal) (k : string) : JsVal :=
  default VUndefined (m !! k).

(** [_getParamFromReq] *)
Definition _getParamFromReq (req : Req) (param : string) : JsVal :=
  js_or (js_or (js_or (field (params req) param) (field (query req) param))
               (field (cookies req) param))
        (field (body req) param).

(** Everything a request handler can read or write: the instance, the
    request and response in flight, and the heap. *)
Record World : Type := mkWorld {
  w_kk : KnockKnock;
  w_req : Req;
  w_res : Res;
  w_heap : Heap
}.

(** ** The monad of the embedding: state and exceptions *)

Definition M (A : Type) : Type := World -> Completion A * World.

Definition ret {A} (a : A) : M A := fun w => (Return a, w).
Definition throw {A} (e : Exn) : M A := fun w => (Throw e, w).
Definition bind {A B} (m : M A) (k : A -> M B) : M B :=
  fun w => match m w with
           | (Return a, w') => k a w'
           | (Throw e, w') => (Throw e, w')
           end.
Definition gets {A} (f : World -> A) : M A := fun w => (Return (f w), w).
Definition modify (f : World -> World) : M unit := fun w => (Return tt, f w).
Definition liftC {A} (f : World -> Completion A) : M A := fun w => (f w, w).

Notation "'let!' x ':=' m 'in' k" := (bind m (fun x => k))
  (at level 10, x name, m at level 100, k at level 200).
Notation "'do!' m 'in' k" := (bind m (fun _ => k))
  (at level 10, m at level 100, k at level 200).

Definition when (b : bool) (m : M unit) : M unit := if b then m else ret tt.

(** [assert(v)] *)
Definition assert (v : bool) : M unit := if v then ret tt else throw AssertionError.

Definition set_kk (f : KnockKnock -> KnockKnock) : M unit :=
  modify (fun w => mkWorld (f (w_kk w)) (w_req w) (w_res w) (w_heap w)).
Definition set_req (f : Req -> Req) : M unit :=
  modify (fun w => mkWorld (w_kk w) (f (w_req w)) (w_res w) (w_heap w)).
Definition set_heap (f : Heap -> Heap) : M unit :=
  modify (fun w => mkWorld (w_kk w) (w_req w) (w_res w) (f (w_heap w))).

(** [new C(...)]: allocate and return the reference. *)
Definition new (o : Obj) : M JsVal :=
  fun w => let '(l, h) := alloc (w_heap w) o in
           (Return (VRef l), mkWorld (w_kk w) (w_req w) (w_res w) h).

Definition new_UnauthorizedError (message : string) (schema : JsVal)
    (cause : option Exn) : M JsVal :=
  new {| o_class := UnauthorizedError message schema cause;
         o_props := ∅; o_symbolDefault := VUndefined |}.

Definition set_user (v : JsVal) (r : Req) : Req :=
  mkReq (params r) (query r) (cookies r) (body r) v (unauthorizedError r).
Definition set_unauthorizedError (v : JsVal) (r : Req) : Req :=
  mkReq (params r) (query r) (cookies r) (body r) (user r) v.

(** ** Registry operations *)

(** [obj[k] = v] on an object reference. *)
Definition set_prop (l : nat) (k : string) (v : JsVal) : M unit :=
  set_heap (alter (set_obj_prop k v) l).

Definition set_symbolDefault (l : nat) (v : JsVal) : M unit :=
  set_heap (alter (set_obj_symbolDefault v) l).

Definition set_schemas (f : SchemaMap -> SchemaMap) : M unit :=
  set_kk (fun kk => mkKnockKnock (f (schemas kk)) (defaultSchemasCache kk) (options kk)).

Definition set_defaultSchemasCache (f : gmap string JsVal -> gmap string JsVal) : M unit :=
  set_kk (fun kk => mkKnockKnock (schemas kk) (f (defaultSchemasCache kk)) (options kk)).

(** A parameter with a default value, [x = d]: the default replaces a
    missing argument and an explicit [undefined]. *)
Definition default_param (x d : JsVal) : JsVal :=
  if bool_decide (x = VUndefined) then d else x.

(** [enable(name, schema, setDefault = false, verifyLogin = null)]; the
    schema is an object, given by its reference. *)
Definition enable (name : JsVal) (schema : nat) (setDefault verifyLogin : JsVal) : M unit :=
  let setDefault := default_param setDefault (VBool false) in
  let verifyLogin := default_param verifyLogin VNull in
  let! name :=
    (if truthy name && bool_decide (typeof name = TyString)
     then do! set_prop schema "name" name in ret name
     else liftC (fun w => get_prop (w_heap w) (VRef schema) "name")) in
  do! assert (truthy name) in
  do! assert (truthy (VRef schema) && bool_decide (typeof (VRef schema) = TyObject)) in
  do! set_symbolDefault schema setDefault in
  do! when (truthy verifyLogin && bool_decide (typeof verifyLogin = TyFunction))
           (set_prop schema "verify" verifyLogin) in
  do! set_schemas (fun m => Map_set m name schema) in
  set_defaultSchemasCache (fun _ => ∅).

(** [disable(name)] *)
Definition disable (name : JsVal) : M unit :=
  do! assert (truthy name) in
  do! set_schemas (fun m => Map_delete m name) in
  set_defaultSchemasCache (fun _ => ∅).

(** [i[KnockKnock.symbolDefault]] *)
Definition get_symbolDefault (h : Heap) (v : JsVal) : Completion JsVal :=
  match v with
  | VUndefined | VNull => Throw TypeError
  | VRef l => Return (obj_symbolDefault h l)
  | _ => Return VUndefined
  end.

(** The callback of [find] in [_preferSchema]:
    [i[KnockKnock.symbolDefault] && hasRequiredFunction(i, type)]. *)
Definition is_default_for (h : Heap) (type : CapType) (i : JsVal) : Completion bool :=
  cbind (get_symbolDefault h i)
        (fun d => if truthy d then schemaInterface.hasRequiredFunction h i type
                  else Return false).

(** [_preferSchema(name, type)]; [None] is the default [type = null]. *)
Definition _preferSchema (name : JsVal) (type : option CapType) : M JsVal :=
  if truthy name then
    let! res := gets (fun w => Map_get (schemas (w_kk w)) name) in
    match type with
    | Some t =>
        let! b := liftC (fun w => schemaInterface.hasRequiredFunction (w_heap w) res t) in
        ret (if b then res else VUndefined)
    | None => ret res
    end
  else
    match type with
    | Some t =>
        let key := schemaInterface.type_key t in
        let! c := gets (fun w => field (defaultSchemasCache (w_kk w)) key) in
        do! (if negb (truthy c)
             then
               let! found := liftC (fun w =>
                 js_find (is_default_for (w_heap w) t) (Map_values (schemas (w_kk w)))) in
               set_defaultSchemasCache (fun m => <[key := found]> m)
             else ret tt) in
        gets (fun w => field (defaultSchemasCache (w_kk w)) key)
    | None => ret VNull
    end.

(** ** The execution engine and the middleware factory *)

(** How a middleware ends: [next()] or [next(arg)]. *)
Inductive NextCall : Type :=
  | Next
  | NextWith (arg : JsVal).

Section Engine.

(** The plugin contract.  [impl f a (req, res, h)] is the behaviour of the
    function [VFun f] when it is called on the request and response in
    flight: [a] is the schema the function is called on (a method) or
    with (a global response hook).  A call returns or throws, and may
    change the request, the response and the heap; calls are awaited one
    after the other. *)
Variable impl : nat -> JsVal -> Req * Res * Heap -> Completion JsVal * (Req * Res * Heap).

(** [f(req, res)]: calling what is not a function is a [TypeError]. *)
Definition call (f : JsVal) (a : JsVal) : M JsVal :=
  fun w =>
    match f with
    | VFun n =>
        let '(c, (rq, rs, h)) := impl n a (w_req w, w_res w, w_heap w) in
        (c, mkWorld (w_kk w) rq rs h)
    | _ => (Throw TypeError, w)
    end.

(** [setUser] of [_manual] *)
Definition setUser (user : JsVal) : M JsVal :=
  if truthy user then
    let! user :=
      (if negb (bool_decide (typeof user = TyObject))
       then new {| o_class := PlainObject; o_props := {[ "user" := user ]};
                   o_symbolDefault := VUndefined |}
       else ret user) in
    do! set_req (set_user user) in
    ret user
  else ret user.

(** [setUser(await schema[schemaInterface.interface[type]](req, res) || req.user)],
    the first statement of both [login] and [auth]. *)
Definition knock (schema : JsVal) (type : CapType) : M JsVal :=
  let! f := liftC (fun w => get_prop (w_heap w) schema (schemaInterface.interface type)) in
  let! r := call f schema in
  let! u := gets (fun w => user (w_req w)) in
  setUser (js_or r u).

(** [if (res.headersSent) throw new UnauthorizedError("don't end res in schema", schema)] *)
Definition check_headersSent (schema : JsVal) : M unit :=
  let! hs := gets (fun w => headersSent (w_res w)) in
  if truthy hs then
    let! e := new_UnauthorizedError "don't end res in schema" schema None in
    throw (Thrown e)
  else ret tt.

(** [if (typeof schema[k] === 'function') await schema[k](req, res)] *)
Definition call_hook (schema : JsVal) (k : string) : M unit :=
  let! f := liftC (fun w => get_prop (w_heap w) schema k) in
  if bool_decide (typeof f = TyFunction) then do! call f schema in ret tt else ret tt.

(** [if (g) await g(schema, req, res)] for a global response hook. *)
Definition call_global (g : KnockOption -> JsVal) (schema : JsVal) : M unit :=
  let! f := gets (fun w => g (options (w_kk w))) in
  if truthy f then do! call f schema in ret tt else ret tt.

(** [login] of [_manual] *)
Definition login (schema : JsVal) : M JsVal :=
  let! v := liftC (fun w => valid (w_kk w) (w_heap w)) in
  do! assert v in
  let! user := knock schema login_t in
  do! check_headersSent schema in
  let! uerr := gets (fun w => unauthorizedError (w_req w)) in
  do! when (truthy user && negb (truthy uerr))
        (let! p := gets (fun w =>
           _getParamFromReq (w_req w) (schemaInterface.interface auth_t)) in
         let! auth := _preferSchema p (Some auth_t) in
         if truthy auth then call_hook auth "create" else ret tt) in
  do! call_hook schema "loginResponse" in
  do! call_global globalLoginResponse schema in
  ret VUndefined.

(** [auth] of [_manual] *)
Definition auth (schema : JsVal) : M JsVal :=
  do! knock schema auth_t in
  do! check_headersSent schema in
  do! call_hook schema "authResponse" in
  do! call_global globalAuthResponse schema in
  ret VUndefined.

(** [this._manual(schema, req, res)[type]()] *)
Definition _manual (schema : JsVal) (type : CapType) : M JsVal :=
  match type with
  | login_t => login schema
  | auth_t => auth schema
  end.

(** [KnockKnock.prototype[method](schemaName)]: the part of the factory
    that runs when the factory is called.  Its result is the initial value
    of the variable [schema] captured by the middleware it returns. *)
Definition factory (type : CapType) (method : string) (schemaName : JsVal) : M JsVal :=
  if truthy schemaName then _preferSchema schemaName (Some type) else ret VUndefined.

(** The middleware up to the assignment to the captured variable
    [schema]: the result is the value of [schema] from there on. *)
Definition resolve (type : CapType) (schema : JsVal) : M JsVal :=
  let! v := liftC (fun w => valid (w_kk w) (w_heap w)) in
  do! assert v in
  if negb (truthy schema) then
    let! p := gets (fun w =>
      _getParamFromReq (w_req w)
        (match type with
         | login_t => schemaInterface.interface login_t
         | _ => schemaInterface.interface auth_t
         end)) in
    _preferSchema p (Some type)
  else ret schema.

(** [Object.values(schemaInterface.interface).some(v => schema[v] === schema[method])] *)
Definition isInterfaceMethod (schema : JsVal) (method : string) : M bool :=
  liftC (fun w =>
    js_some (fun v =>
               cbind (get_prop (w_heap w) schema v) (fun a =>
               cbind (get_prop (w_heap w) schema method) (fun b =>
               Return (strict_eq a b))))
            schemaInterface.interface_values).

(** The rest of the [try] block, up to but not including [next()]. *)
Definition dispatch (type : CapType) (method : string) (schema : JsVal) : M unit :=
  let! m := (if truthy schema
             then liftC (fun w => get_prop (w_heap w) schema method)
             else ret VUndefined) in
  do! assert (truthy schema && bool_decide (typeof m = TyFunction)) in
  let! im := isInterfaceMethod schema method in
  do! (if im : bool then
         let! r := _manual schema type in
         let! u := gets (fun w => user (w_req w)) in
         let usr := js_or r u in
         let! uerr := gets (fun w => unauthorizedError (w_req w)) in
         if negb (truthy usr) && negb (truthy uerr) then
           let! e := new_UnauthorizedError
             "must set req.user if login/auth success or set req.unauthorizedError otherwise"
             schema None in
           set_req (set_unauthorizedError e)
         else ret tt
       else
         let! f := liftC (fun w => get_prop (w_heap w) schema method) in
         do! call f schema in ret tt) in
  let! uerr := gets (fun w => unauthorizedError (w_req w)) in
  if truthy uerr then throw (Thrown uerr) else ret tt.

(** The [catch] block. *)
Definition on_error (schema : JsVal) (err : Exn) (w : World) : NextCall * World :=
  let w1 :=
    if instanceof_UnauthorizedError (w_heap w) err then w
    else
      let '(l, h) :=
        alloc (w_heap w)
          {| o_class := UnauthorizedError "internal error" schema (Some err);
             o_props := ∅; o_symbolDefault := VUndefined |} in
      mkWorld (w_kk w) (set_unauthorizedError (VRef l) (w_req w)) (w_res w) h in
  if truthy (throwUnauthorizedError (options (w_kk w1)))
  then (NextWith (unauthorizedError (w_req w1)), w1)
  else (Next, w1).

(** One run of the middleware [async (req, res, next) => ...].  [schema] is
    the current value of the captured variable; the run returns how [next]
    was called and the value of the captured variable afterwards. *)
Definition middleware (type : CapType) (method : string) (schema : JsVal) (w : World)
  : NextCall * JsVal * World :=
  match resolve type schema w with
  | (Throw e, w1) => let '(n, w2) := on_error schema e w1 in (n, schema, w2)
  | (Return s, w1) =>
      match dispatch type method s w1 with
      | (Return _, w2) => (Next, s, w2)
      | (Throw e, w2) => let '(n, w3) := on_error s e w2 in (n, s, w3)
      end
  end.

End Engine.

(** ** An invariant of computations

    [keeps_options m]: whatever [m] does, the options of the instance are
    afterwards what they were before. *)
Definition keeps_options {A} (m : M A) : Prop :=
  forall w c w', m w = (c, w') -> options (w_kk w') = options (w_kk w).

(** ** Concrete schemas and requests

    A small plugin set, used to run the model on explicit inputs. *)

Module Scenario.

(** Function [0] returns the user name ["alice"], [5] returns ["bob"];
    [1] reports a failure by setting [req.unauthorizedError]; [2] does
    nothing; [3] ends the response; [4] is a response hook that sets
    [req.user] to the object [{id: 1}]. *)
Definition impl (f : nat) (a : JsVal) (s : Req * Res * Heap)
  : Completion JsVal * (Req * Res * Heap) :=
  let '(rq, rs, h) := s in
  match f with
  | 0 => (Return (VStr "alice"), s)
  | 1 =>
      let '(l, h') :=
        alloc h (mkObj (UnauthorizedError "bad password" a None) ∅ VUndefined) in
      (Return VUndefined, (set_unauthorizedError (VRef l) rq, rs, h'))
  | 2 => (Return VUndefined, s)
  | 3 => (Return VUndefined, (rq, mkRes (VBool true), h))
  | 4 =>
      let '(l, h') := alloc h (mkObj PlainObject {[ "id" := VNum 1 ]} VUndefined) in
      (Return VUndefined, (set_user (VRef l) rq, rs, h'))
  | 5 => (Return (VStr "bob"), s)
  | _ => (Throw TypeError, s)
  end.

(** A login schema [{knockLogin: f, login: f}]: its [login] method is its
    required method, so that [kk.login()] runs the engine. *)
Definition login_schema (f : nat) : Obj :=
  mkObj PlainObject {[ "knockLogin" := VFun f; "login" := VFun f ]} VUndefined.

Definition req0 : Req := mkReq ∅ ∅ ∅ ∅ VUndefined VUndefined.
Definition res0 : Res := mkRes (VBool false).

(** A request that selects a login schema by the path parameter
    [knockLogin]. *)
Definition req_for (name : string) : Req :=
  mkReq {[ "knockLogin" := VStr name ]} ∅ ∅ ∅ VUndefined VUndefined.

(** [new KnockKnock(option)] with the schema objects [h] already built. *)
Definition fresh (option : option KnockOption) (h : Heap) : World :=
  mkWorld (constructor option) req0 res0 h.

(** The world after a statement. *)
Definition after {A} (m : M A) (w : World) : World := (m w).2.

(** A new request arrives: the instance and the heap stay. *)
Definition arrive (r : Req) (w : World) : World :=
  mkWorld (w_kk w) r res0 (w_heap w).

(** [new KnockKnock({throwUnauthorizedError: false})] with a default login
    schema ["A"] whose login always fails. *)
Definition w_no_throw : World :=
  after (enable (VStr "A") 0 (VBool true) VNull)
        (fresh (Some (mkOption VUndefined VUndefined (VBool false))) [login_schema 1]).

(** Two login schemas ["A"] and ["B"], neither a default. *)
Definition w_two : World :=
  after (enable (VStr "B") 1 (VBool false) VNull)
    (after (enable (VStr "A") 0 (VBool false) VNull)
           (fresh None [login_schema 0; login_schema 5])).

(** A default login schema ["A"]. *)
Definition w_default : World :=
  after (enable (VStr "A") 0 (VBool true) VNull) (fresh None [login_schema 0]).

(** A default login schema that does nothing, and a global login response
    hook that sets [req.user]. *)
Definition w_hook : World :=
  after (enable (VStr "A") 0 (VBool true) VNull)
        (fresh (Some (mkOption (VFun 4) VUndefined VUndefined)) [login_schema 2]).

(** A default login schema whose login method ends the response. *)
Definition w_ends : World :=
  after (enable (VStr "A") 0 (VBool true) VNull) (fresh None [login_schema 3]).

(** A request whose path parameter [knockLogin] is the empty string and
    whose query parameter [knockLogin] is ["B"]. *)
Definition req_empty_path : Req :=
  mkReq {[ "knockLogin" := VStr "" ]} {[ "knockLogin" := VStr "B" ]} ∅ ∅
        VUndefined VUndefined.

End Scenario.

(** ** More concrete schemas *)

Module Plugins.


(** An auth schema [{knockAuth: f, auth: f}], with no login method. *)
Definition auth_schema (f : nat) : Obj :=
  mkObj PlainObject {[ "knockAuth" := VFun f; "auth" := VFun f ]} VUndefined.

(** A login schema whose login fails (function [1]) and whose
    [loginResponse] hook is the function [4]. *)
Definition failing_with_hook : Obj :=
  mkObj PlainObject
    {[ "knockLogin" := VFun 1; "login" := VFun 1; "loginResponse" := VFun 4 ]}
    VUndefined.


(** A default login schema ["A"] and an auth schema ["B"]. *)
Definition w_mixed : World :=
  Scenario.after (enable (VStr "B") 1 (VBool false) VNull)
    (Scenario.after (enable (VStr "A") 0 (VBool true) VNull)
       (Scenario.fresh None [Scenario.login_schema 0; auth_schema 0])).

(** The default schema ["A"] whose login fails, with its response hook. *)
Definition w_failing : World :=
  Scenario.after (enable (VStr "A") 0 (VBool true) VNull)
                 (Scenario.fresh None [failing_with_hook]).


(** An auth schema with a [revoke] method that does nothing (function [2]). *)
Definition auth_with_revoke : Obj :=
  mkObj PlainObject
    {[ "knockAuth" := VFun 0; "auth" := VFun 0; "revoke" := VFun 2 ]} VUndefined.

(** A default login schema ["A"] and a default auth schema ["B"] with a
    [revoke] method. *)
Definition w_revoke : World :=
  Scenario.after (enable (VStr "B") 1 (VBool true) VNull)
    (Scenario.after (enable (VStr "A") 0 (VBool true) VNull)
       (Scenario.fresh None [Scenario.login_schema 0; auth_with_revoke])).

(** A default login schema ["A"] whose login fails, on a new instance
    without options. *)
Definition w_rejecting : World :=
  Scenario.after (enable (VStr "A") 0 (VBool true) VNull)
                 (Scenario.fresh None [Scenario.login_schema 1]).


End Plugins.

(** ** Predicates for properties of the registry *)

(** The test of [enable] on its first argument:
    [name && typeof name === 'string']. *)
Definition usable_name (name : JsVal) : bool :=
  truthy name && bool_decide (typeof name = TyString).

(** The test of [enable] on its last argument:
    [verifyLogin && typeof verifyLogin === 'function']. *)
Definition usable_verify (verifyLogin : JsVal) : bool :=
  truthy verifyLogin && bool_decide (typeof verifyLogin = TyFunction).

(** What the callback of [find] in [_preferSchema] tests on a stored
    schema: the default flag is truthy and the required method is there. *)
Definition qualifies (h : Heap) (type : CapType) (s : nat) : bool :=
  truthy (obj_symbolDefault h s) && callable h s (schemaInterface.interface type).

(** The keys of the registry, in order. *)
Definition Map_keys (m : SchemaMap) : list JsVal := m.*1.

(** ** The engine after its first statement *)

(** The statements of [login] that follow
    [let user = setUser(...)]; [usr] is the value of [user]. *)
Definition login_rest impl (schema usr : JsVal) : M JsVal :=
  do! check_headersSent schema in
  let! uerr := gets (fun w => unauthorizedError (w_req w)) in
  do! when (truthy usr && negb (truthy uerr))
        (let! p := gets (fun w =>
           _getParamFromReq (w_req w) (schemaInterface.interface auth_t)) in
         let! a := _preferSchema p (Some auth_t) in
         if truthy a then call_hook impl a "create" else ret tt) in
  do! call_hook impl schema "loginResponse" in
  do! call_global impl globalLoginResponse schema in
  ret VUndefined.

(** The statements of [auth] that follow [setUser(...)]. *)
Definition auth_rest impl (schema : JsVal) : M JsVal :=
  do! check_headersSent schema in
  do! call_hook impl schema "authResponse" in
  do! call_global impl globalAuthResponse schema in
  ret VUndefined.

Definition manual_rest impl (schema : JsVal) (type : CapType) (usr : JsVal) : M JsVal :=
  match type with
  | login_t => login_rest impl schema usr
  | auth_t => auth_rest impl schema
  end.

(** ** What a program does between two calls of [enable] or [disable] *)

(** The operations on an instance other than [enable] and [disable]: a
    resolution, a call of a factory, a run of a middleware on a new request
    (with any value of its captured variable), and a write by the program to
    a property or to the default flag of an object. *)
Inductive Op : Type :=
  | OpPreferSchema (name : JsVal) (type : option CapType)
  | OpFactory (type : CapType) (method : string) (schemaName : JsVal)
  | OpRequest (type : CapType) (method : string) (schema : JsVal) (req : Req) (res : Res)
  | OpWrite (l : nat) (k : string) (v : JsVal)
  | OpWriteDefault (l : nat) (v : JsVal).

Definition run_op impl (op : Op) (w : World) : World :=
  match op with
  | OpPreferSchema name type => (_preferSchema name type w).2
  | OpFactory type method schemaName => (factory type method schemaName w).2
  | OpRequest type method schema req res =>
      (middleware impl type method schema (mkWorld (w_kk w) req res (w_heap w))).2
  | OpWrite l k v => (set_prop l k v w).2
  | OpWriteDefault l v => (set_symbolDefault l v w).2
  end.

Definition run_ops impl (ops : list Op) (w : World) : World :=
  List.fold_left (fun w op => run_op impl op w) ops w.

(** [memo_le k k']: every truthy entry of the default-schema cache of [k] is
    an entry of the cache of [k']. *)
Definition memo_le (k k' : KnockKnock) : Prop :=
  forall key, truthy (field (defaultSchemasCache k) key) = true ->
              field (defaultSchemasCache k') key = field (defaultSchemasCache k) key.

(** [keeps_memo m]: whatever [m] does, it keeps the truthy entries of the
    cache. *)
Definition keeps_memo {A} (m : M A) : Prop :=
  forall w c w', m w = (c, w') -> memo_le (w_kk w) (w_kk w').

(** * Properties *)

(** ** Values and options *)

Lemma js_or_truthy a b : truthy a = true -> js_or a b = a.
Proof. unfold js_or. by intros ->. Qed.

Lemma js_or_falsy a b : truthy a = false -> js_or a b = b.
Proof. unfold js_or. by intros ->. Qed.

(** Whatever an ordinary option object holds, the normalized option is
    truthy: a falsy [throwUnauthorizedError] is replaced by [true].  (Only a
    property that cannot be written keeps a falsy value.) *)
Lemma normalizeOption_throwUnauthorizedError o :
  (forall x, o = Some x -> "throwUnauthorizedError" ∉ readonly x) ->
  truthy (throwUnauthorizedError (normalizeOption o)) = true.
Proof.
  intros Hw. unfold normalizeOption, assign; simpl.
  rewrite bool_decide_false.
  - unfold js_or. by destruct (truthy (throwUnauthorizedError _)) eqn:E.
  - destruct o as [x|]; [by apply Hw|apply not_elem_of_nil].
Qed.

(** ** Parameter extraction *)

(** C3, as the code has it: [_getParamFromReq] returns the first truthy value
    among the path parameter, the query parameter and the cookie named
    [param], in that order, and the body field named [param] when none of
    the three is truthy. *)
Theorem C3_getParam_first_truthy (req : Req) (param : string) :
  _getParamFromReq req param =
  default (field (body req) param)
          (List.find truthy [field (params req) param;
                             field (query req) param;
                             field (cookies req) param]).
Proof.
  unfold _getParamFromReq, js_or; simpl.
  destruct (truthy (field (params req) param)) eqn:Ep; simpl;
    [by repeat (rewrite Ep; simpl)|].
  destruct (truthy (field (query req) param)) eqn:Eq; simpl;
    [by repeat (rewrite Eq; simpl)|].
  by destruct (truthy (field (cookies req) param)) eqn:Ec; simpl; rewrite ?Ec.
Qed.

(** C3, counterexample to the property as stated: a path parameter that is defined but
    falsy (the empty string) is not the value returned; the query parameter
    is. *)
Lemma C3_falsy_path_is_skipped :
  params Scenario.req_empty_path !! "knockLogin" = Some (VStr "") /\
  _getParamFromReq Scenario.req_empty_path "knockLogin" = VStr "B" /\
  _getParamFromReq Scenario.req_empty_path "knockLogin" <> VStr "".
Proof. vm_compute. repeat split; congruence. Qed.

(** Precedence among truthy values: a truthy path parameter wins. *)
Lemma getParam_path (req : Req) (param : string) :
  truthy (field (params req) param) = true ->
  _getParamFromReq req param = field (params req) param.
Proof. intros H. unfold _getParamFromReq, js_or. by repeat (rewrite H; simpl). Qed.

(** ** The registry *)

Lemma hasRequiredFunction_ref h l t :
  schemaInterface.hasRequiredFunction h (VRef l) t =
  Return (callable h l (schemaInterface.interface t)).
Proof. reflexivity. Qed.

Lemma some_login_values h (m : SchemaMap) :
  js_some (fun i => schemaInterface.hasRequiredFunction h i login_t) (Map_values m) =
  Return (existsb (fun p => callable h p.2 "knockLogin") m).
Proof.
  induction m as [|[k s] m IH]; simpl; [done|].
  unfold callable at 1.
  destruct (bool_decide (typeof (obj_prop h s "knockLogin") = _)); simpl;
    [done|apply IH].
Qed.

(** [valid] never throws: the values of the registry are objects. *)
Lemma valid_eq kk h :
  valid kk h =
  Return (negb (bool_decide (schemas kk = [])) &&
          existsb (fun p => callable h p.2 "knockLogin") (schemas kk)).
Proof.
  unfold valid, Map_size. rewrite some_login_values.
  by destruct (schemas kk).
Qed.

Lemma find_default_values h t (m : SchemaMap) :
  exists r, js_find (is_default_for h t) (Map_values m) = Return r.
Proof.
  induction m as [|[k s] m [r IH]]; simpl; [by eexists|].
  unfold is_default_for at 1; simpl.
  destruct (truthy (obj_symbolDefault h s)); simpl; [|by eexists].
  destruct (bool_decide (typeof _ = _)); simpl; by eexists.
Qed.

Lemma Map_get_set m k s : Map_get (Map_set m k s) k = VRef s.
Proof.
  unfold Map_get. induction m as [|[k' s'] m IH]; simpl.
  - by rewrite bool_decide_true.
  - destruct (bool_decide (k' = k)) eqn:E; simpl.
    + by rewrite bool_decide_true.
    + by rewrite E.
Qed.

Lemma elem_of_Map_set m k s p :
  p ∈ Map_set m k s -> p = (k, s) \/ p ∈ m.
Proof.
  induction m as [|[k' s'] m IH]; simpl.
  - intros ->%list_elem_of_singleton. by left.
  - destruct (bool_decide (k' = k)).
    + intros [->|H]%elem_of_cons; [by left|right; by apply elem_of_cons; right].
    + intros [->|H]%elem_of_cons; [right; by apply elem_of_cons; left|].
      destruct (IH H) as [->|?]; [by left|right; by apply elem_of_cons; right].
Qed.

Lemma elem_of_Map_delete m k p :
  p ∈ Map_delete m k <-> p ∈ m /\ p.1 <> k.
Proof.
  unfold Map_delete. rewrite !list_elem_of_In, filter_In, negb_true_iff.
  by rewrite bool_decide_eq_false.
Qed.

Lemma Map_get_elem_of m k s : Map_get m k = VRef s -> (k, s) ∈ m.
Proof.
  unfold Map_get. destruct (List.find _ m) as [[k' s']|] eqn:E; [|done].
  intros [= ->]. apply find_some in E as [E1 E2].
  apply bool_decide_eq_true in E2; simpl in E2; subst.
  by apply list_elem_of_In.
Qed.

(** ** Properties of objects *)

Lemma obj_prop_set_ne h l l' k k' v :
  k <> k' -> obj_prop (alter (set_obj_prop k v) l h) l' k' = obj_prop h l' k'.
Proof.
  intros Hk. unfold obj_prop. destruct (decide (l = l')) as [->|Hl].
  - rewrite list_lookup_alter_eq. destruct (h !! l'); simpl; [|done].
    by rewrite lookup_insert_ne.
  - by rewrite list_lookup_alter_ne.
Qed.

Lemma obj_prop_set_symbolDefault h l l' k v :
  obj_prop (alter (set_obj_symbolDefault v) l h) l' k = obj_prop h l' k.
Proof.
  unfold obj_prop. destruct (decide (l = l')) as [->|Hl].
  - rewrite list_lookup_alter_eq. by destruct (h !! l').
  - by rewrite list_lookup_alter_ne.
Qed.

(** What a call of [enable] that returns has done: the schema is stored under
    a truthy name, the cache is empty, and only the properties [name] and
    [verify] (and the default flag) of objects may differ. *)
Lemma enable_returns name schema setDefault verifyLogin w w' :
  enable name schema setDefault verifyLogin w = (Return tt, w') ->
  (exists nm, truthy nm = true /\
     schemas (w_kk w') = Map_set (schemas (w_kk w)) nm schema) /\
  defaultSchemasCache (w_kk w') = ∅ /\
  options (w_kk w') = options (w_kk w) /\
  (forall l k, k <> "name" -> k <> "verify" ->
     obj_prop (w_heap w') l k = obj_prop (w_heap w) l k).
Proof.
  unfold enable, bind, set_prop, set_symbolDefault, set_schemas,
    set_defaultSchemasCache, set_heap, set_kk, modify, liftC, ret, when.
  destruct (truthy name && bool_decide (typeof name = TyString)) eqn:En; simpl.
  - apply andb_true_iff in En as [En _]. rewrite En; simpl.
    destruct (truthy (default_param verifyLogin VNull) && _); simpl; intros [= <-]; simpl;
      (split; [by eexists|]); (split; [done|]); (split; [done|]);
      intros l k Hn Hv;
      by rewrite ?obj_prop_set_ne, obj_prop_set_symbolDefault, ?obj_prop_set_ne.
  - destruct (truthy (obj_prop (w_heap w) schema "name")) eqn:Et; simpl; [|done].
    destruct (truthy (default_param verifyLogin VNull) && _); simpl; intros [= <-]; simpl;
      (split; [by eexists|]); (split; [done|]); (split; [done|]);
      intros l k Hn Hv;
      by rewrite ?obj_prop_set_ne, obj_prop_set_symbolDefault.
Qed.

Lemma disable_returns name w w' :
  disable name w = (Return tt, w') ->
  schemas (w_kk w') = Map_delete (schemas (w_kk w)) name /\
  defaultSchemasCache (w_kk w') = ∅ /\
  options (w_kk w') = options (w_kk w) /\
  w_heap w' = w_heap w.
Proof.
  unfold disable, bind, set_schemas, set_defaultSchemasCache, set_kk, modify,
    assert, ret, throw.
  destruct (truthy name); simpl; [|done].
  by intros [= <-].
Qed.

(** ** Schema resolution *)

(** With a registered name and a type, the resolver answers from the named
    schema alone: the schema when it has the required method, [undefined]
    otherwise.  The default-schema cache is neither read nor written. *)
Lemma preferSchema_registered_name name type s w :
  truthy name = true ->
  Map_get (schemas (w_kk w)) name = VRef s ->
  _preferSchema name (Some type) w =
  (Return (if callable (w_heap w) s (schemaInterface.interface type)
           then VRef s else VUndefined), w).
Proof.
  intros Hn Hg. unfold _preferSchema, bind, gets, liftC, ret. rewrite Hn, Hg.
  by rewrite hasRequiredFunction_ref.
Qed.

(** C10: with a truthy name that is not a key of the registry and a type,
    [_preferSchema] does not return: [hasRequiredFunction] reads a property
    of [undefined] and the [TypeError] escapes, also from a middleware
    factory called with that name. *)
Theorem C10_unregistered_name_TypeError
    (name : JsVal) (type : CapType) (method : string) (w : World) :
  truthy name = true ->
  Map_get (schemas (w_kk w)) name = VUndefined ->
  _preferSchema name (Some type) w = (Throw TypeError, w) /\
  factory type method name w = (Throw TypeError, w).
Proof.
  intros Hn Hg.
  assert (_preferSchema name (Some type) w = (Throw TypeError, w)) as H.
  { unfold _preferSchema, bind, gets, liftC. by rewrite Hn, Hg. }
  split; [done|]. unfold factory. by rewrite Hn.
Qed.

(** At the name ["ghost"], with only ["A"] registered. *)
Lemma C10_witness :
  _preferSchema (VStr "ghost") (Some login_t) Scenario.w_default =
    (Throw TypeError, Scenario.w_default) /\
  factory login_t "login" (VStr "ghost") Scenario.w_default =
    (Throw TypeError, Scenario.w_default).
Proof.
  apply (C10_unregistered_name_TypeError (VStr "ghost") login_t "login"
           Scenario.w_default); reflexivity.
Defined.

(** C4, at a name that is not registered: the resolver does not return
    [undefined], it throws a [TypeError] (a default login schema is
    registered, and is not returned either). *)
Theorem C4_unregistered_name_throws :
  Map_get (schemas (w_kk Scenario.w_default)) (VStr "ghost") = VUndefined /\
  (_preferSchema (VStr "ghost") (Some login_t) Scenario.w_default).1 = Throw TypeError /\
  (_preferSchema (VStr "ghost") (Some login_t) Scenario.w_default).1 <> Return VUndefined.
Proof. vm_compute. repeat split; congruence. Qed.

(** ** Validity *)

Lemma valid_true_iff kk h :
  valid kk h = Return true <->
  schemas kk <> [] /\
  exists n s, (n, s) ∈ schemas kk /\ typeof (obj_prop h s "knockLogin") = TyFunction.
Proof.
  rewrite valid_eq. split.
  - intros [= H]. apply andb_true_iff in H as [H1 H2].
    apply negb_true_iff, bool_decide_eq_false in H1. split; [done|].
    apply existsb_exists in H2 as ([n s] & Hin & Hc).
    exists n, s. split; [by apply list_elem_of_In|].
    by apply bool_decide_eq_true in Hc.
  - intros (Hne & n & s & Hin & Hc). f_equal. apply andb_true_iff. split.
    + by apply negb_true_iff, bool_decide_eq_false.
    + apply existsb_exists. exists (n, s). split; [by apply list_elem_of_In|].
      by apply bool_decide_eq_true.
Qed.

Lemma valid_cases kk h : valid kk h = Return true \/ valid kk h = Return false.
Proof. rewrite valid_eq. destruct (_ && _); auto. Qed.

(** C6: [valid] is true exactly when the registry is not empty and some
    stored schema has a callable [knockLogin] (and [valid] never throws).  An
    empty registry is not valid; enabling a schema with a callable
    [knockLogin] makes the instance valid; if the instance was not valid
    before, disabling the name under which that schema is stored makes it
    not valid again. *)
Theorem C6_valid_iff (w : World) :
  (valid (w_kk w) (w_heap w) = Return true <->
     schemas (w_kk w) <> [] /\
     exists n s, (n, s) ∈ schemas (w_kk w) /\
                 typeof (obj_prop (w_heap w) s "knockLogin") = TyFunction) /\
  (valid (w_kk w) (w_heap w) = Return true \/
   valid (w_kk w) (w_heap w) = Return false) /\
  (schemas (w_kk w) = [] -> valid (w_kk w) (w_heap w) = Return false) /\
  (forall name schema setDefault verifyLogin w1,
     typeof (obj_prop (w_heap w) schema "knockLogin") = TyFunction ->
     enable name schema setDefault verifyLogin w = (Return tt, w1) ->
     valid (w_kk w1) (w_heap w1) = Return true /\
     (valid (w_kk w) (w_heap w) = Return false ->
      forall nm w2,
        Map_get (schemas (w_kk w1)) nm = VRef schema ->
        disable nm w1 = (Return tt, w2) ->
        valid (w_kk w2) (w_heap w2) = Return false)).
Proof.
  split; [apply valid_true_iff|]. split; [apply valid_cases|]. split.
  { intros He. rewrite valid_eq, He. done. }
  intros name schema setDefault verifyLogin w1 Hc He.
  apply enable_returns in He as ((nm0 & Hnm0 & Hs) & _ & _ & Hp).
  assert (forall s, obj_prop (w_heap w1) s "knockLogin" =
                    obj_prop (w_heap w) s "knockLogin") as Hsame.
  { intros s. by apply Hp. }
  split.
  - apply valid_true_iff. rewrite Hs. split.
    + intros Hnil. pose proof (Map_get_set (schemas (w_kk w)) nm0 schema) as Hg.
      by rewrite Hnil in Hg.
    + exists nm0, schema. split; [|by rewrite Hsame].
      apply Map_get_elem_of, Map_get_set.
  - intros Hv nm w2 Hg Hd.
    apply disable_returns in Hd as (Hs2 & _ & _ & Hh2).
    destruct (valid_cases (w_kk w2) (w_heap w2)) as [Ht|Hf]; [|done].
    exfalso. apply valid_true_iff in Ht as (_ & n & s & Hin & Hcs).
    rewrite Hs2, Hs in Hin. apply elem_of_Map_delete in Hin as [Hin Hne].
    simpl in Hne. rewrite Hh2, Hsame in Hcs.
    assert (forall n' s', (n', s') ∈ schemas (w_kk w) ->
              typeof (obj_prop (w_heap w) s' "knockLogin") = TyFunction -> False)
      as Hold.
    { intros n' s' Hin' Hc'.
      assert (valid (w_kk w) (w_heap w) = Return true) as Ht; [|congruence].
      apply valid_true_iff. split; [|by exists n', s'].
      intros Hnil. rewrite Hnil in Hin'. by apply elem_of_nil in Hin'. }
    apply elem_of_Map_set in Hin as [[= -> ->]|Hin]; [|by eapply Hold].
    rewrite Hs in Hg. apply Map_get_elem_of, elem_of_Map_set in Hg
      as [[= ->]|Hg]; [done|by eapply Hold].
Qed.

(** Enable ["A"] on a new instance, then disable it. *)
Lemma C6_witness :
  valid (w_kk Scenario.w_default) (w_heap Scenario.w_default) = Return true /\
  valid (w_kk (Scenario.after (disable (VStr "A")) Scenario.w_default))
        (w_heap (Scenario.after (disable (VStr "A")) Scenario.w_default)) = Return false.
Proof.
  destruct (C6_valid_iff (Scenario.fresh None [Scenario.login_schema 0]))
    as (_ & _ & Hempty & Hen).
  destruct (Hen (VStr "A") 0 (VBool true) VNull Scenario.w_default
              eq_refl eq_refl) as [Ht Hf].
  split; [exact Ht|].
  apply (Hf (Hempty eq_refl) (VStr "A")); reflexivity.
Defined.

(** ** The throw-or-suppress policy *)

(** C1, at [new KnockKnock({throwUnauthorizedError: false})]: the option
    stored by the constructor is [true], and the login middleware of a
    schema whose login fails calls [next(error)] with the error stored on
    the request, not [next()]. *)
Theorem C1_throw_false_is_ignored :
  throwUnauthorizedError
    (normalizeOption (Some (mkOption VUndefined VUndefined (VBool false)))) = VBool true /\
  let '(n, _, w) :=
    middleware Scenario.impl login_t "login" VUndefined Scenario.w_no_throw in
  n = NextWith (VRef 1) /\
  n <> Next /\
  unauthorizedError (w_req w) = VRef 1 /\
  o_class <$> w_heap w !! 1 = Some (UnauthorizedError "bad password" (VRef 0) None).
Proof. vm_compute. repeat split; congruence. Qed.

(** ** The captured schema of a middleware *)

(** Once the captured variable [schema] holds a schema, a run of the
    middleware on a valid instance keeps it: the request is not read. *)
Lemma resolve_captured type schema w :
  truthy schema = true ->
  valid (w_kk w) (w_heap w) = Return true ->
  resolve type schema w = (Return schema, w).
Proof.
  intros Hs Hv. unfold resolve, bind, liftC, assert, ret.
  by rewrite Hv, Hs.
Qed.

(** C2, at two requests through one middleware of [kk.login()]: the first
    selects schema ["A"], the second selects ["B"].  The second request is
    served by ["A"], the schema inferred for the first one, although its own
    parameter resolves to ["B"]. *)
Theorem C2_second_request_reuses_first_schema :
  let '(_, s1, w1) :=
    middleware Scenario.impl login_t "login" VUndefined
               (Scenario.arrive (Scenario.req_for "A") Scenario.w_two) in
  let w1' := Scenario.arrive (Scenario.req_for "B") w1 in
  let '(n2, s2, w2) := middleware Scenario.impl login_t "login" s1 w1' in
  s1 = VRef 0 /\
  _getParamFromReq (w_req w1') "knockLogin" = VStr "B" /\
  (_preferSchema (VStr "B") (Some login_t) w1').1 = Return (VRef 1) /\
  s2 = VRef 0 /\
  n2 = Next /\
  user (w_req w2) = VRef 3 /\
  obj_prop (w_heap w2) 3 "user" = VStr "alice".
Proof. vm_compute. repeat split; congruence. Qed.

(** ** The options of an instance never change *)

Create HintDb keeps.

Lemma keeps_ret {A} (a : A) : keeps_options (ret a).
Proof. by intros w c w' [= <- <-]. Qed.

Lemma keeps_throw {A} e : keeps_options (@throw A e).
Proof. by intros w c w' [= <- <-]. Qed.

Lemma keeps_gets {A} (f : World -> A) : keeps_options (gets f).
Proof. by intros w c w' [= <- <-]. Qed.

Lemma keeps_liftC {A} (f : World -> Completion A) : keeps_options (liftC f).
Proof. by intros w c w' [= <- <-]. Qed.

Lemma keeps_bind {A B} (m : M A) (k : A -> M B) :
  keeps_options m -> (forall a, keeps_options (k a)) -> keeps_options (bind m k).
Proof.
  intros Hm Hk w c w'. unfold bind.
  destruct (m w) as [[a|e] w1] eqn:E.
  - intros H. apply Hk in H. apply Hm in E. congruence.
  - intros [= <- <-]. by apply Hm in E.
Qed.

Lemma keeps_if {A} (b : bool) (m1 m2 : M A) :
  keeps_options m1 -> keeps_options m2 -> keeps_options (if b then m1 else m2).
Proof. by destruct b. Qed.

Lemma keeps_assert b : keeps_options (assert b).
Proof. destruct b; [apply keeps_ret|apply keeps_throw]. Qed.

Lemma keeps_set_req f : keeps_options (set_req f).
Proof. by intros w c w' [= <- <-]. Qed.

Lemma keeps_new o : keeps_options (new o).
Proof. by intros w c w' [= <- <-]. Qed.

Lemma keeps_set_defaultSchemasCache f : keeps_options (set_defaultSchemasCache f).
Proof. by intros w c w' [= <- <-]. Qed.

Lemma keeps_call impl f a : keeps_options (call impl f a).
Proof.
  intros w c w'. unfold call. destruct f; try by intros [= <- <-].
  destruct (impl _ _ _) as [c' [[rq rs] h]]. by intros [= <- <-].
Qed.

#[global] Hint Resolve keeps_ret keeps_throw keeps_gets keeps_liftC keeps_assert
  keeps_set_req keeps_new keeps_set_defaultSchemasCache keeps_call : keeps.

(** Break a computation into its statements. *)
Ltac keeps :=
  repeat first
    [ progress auto with keeps
    | apply keeps_bind; [|intros ?]
    | apply keeps_if
    | match goal with |- keeps_options (match ?x with _ => _ end) => destruct x end ].

Lemma keeps_preferSchema name type : keeps_options (_preferSchema name type).
Proof. unfold _preferSchema. keeps. Qed.

#[global] Hint Resolve keeps_preferSchema : keeps.

Lemma keeps_call_hook impl schema k : keeps_options (call_hook impl schema k).
Proof. unfold call_hook. keeps. Qed.

Lemma keeps_call_global impl g schema : keeps_options (call_global impl g schema).
Proof. unfold call_global. keeps. Qed.

Lemma keeps_knock impl schema type : keeps_options (knock impl schema type).
Proof. unfold knock, setUser. keeps. Qed.

Lemma keeps_check_headersSent schema : keeps_options (check_headersSent schema).
Proof. unfold check_headersSent, new_UnauthorizedError. keeps. Qed.

#[global] Hint Resolve keeps_call_hook keeps_call_global keeps_knock
  keeps_check_headersSent : keeps.

Lemma keeps_manual impl schema type : keeps_options (_manual impl schema type).
Proof. unfold _manual, login, auth, when. keeps. Qed.

Lemma keeps_resolve type schema : keeps_options (resolve type schema).
Proof. unfold resolve. keeps. Qed.

(** ** The execution engine *)

Lemma bind_Return {A B} (m : M A) (k : A -> M B) w b w' :
  bind m k w = (Return b, w') ->
  exists a w1, m w = (Return a, w1) /\ k a w1 = (Return b, w').
Proof.
  unfold bind. destruct (m w) as [[a|e] w1]; [|done].
  intros H. by exists a, w1.
Qed.

Lemma bind_returned {A B} (m : M A) (k : A -> M B) w a w1 :
  m w = (Return a, w1) -> bind m k w = k a w1.
Proof. unfold bind. by intros ->. Qed.

Lemma bind_thrown {A B} (m : M A) (k : A -> M B) w e w1 :
  m w = (Throw e, w1) -> bind m k w = (Throw e, w1).
Proof. unfold bind. by intros ->. Qed.

(** [login] and [auth] have no [return] statement. *)
Lemma manual_returns_undefined impl schema type w r w' :
  _manual impl schema type w = (Return r, w') -> r = VUndefined.
Proof.
  destruct type; simpl; unfold login, auth; intros H;
    repeat (apply bind_Return in H as (? & ? & _ & H));
    by injection H as <- _.
Qed.

(** The first statement of [login] and [auth], step by step. *)
Lemma knock_unfold impl schema type w f r rq rs h :
  get_prop (w_heap w) schema (schemaInterface.interface type) = Return (VFun f) ->
  impl f schema (w_req w, w_res w, w_heap w) = (Return r, (rq, rs, h)) ->
  knock impl schema type w =
  setUser (js_or r (user rq)) (mkWorld (w_kk w) rq rs h).
Proof.
  intros Hg Hi. unfold knock, bind, liftC, call, gets.
  rewrite Hg. simpl. by rewrite Hi.
Qed.

(** The "set user" rule on the first statement of [login] and [auth]. *)
Lemma knock_setUser_rule impl schema type w f r rq rs h :
  get_prop (w_heap w) schema (schemaInterface.interface type) = Return (VFun f) ->
  impl f schema (w_req w, w_res w, w_heap w) = (Return r, (rq, rs, h)) ->
  let v := js_or r (user rq) in
  (truthy r = true -> v = r) /\
  (truthy r = false -> v = user rq) /\
  (truthy v = true -> typeof v <> TyObject ->
     knock impl schema type w =
     (Return (VRef (List.length h)),
      mkWorld (w_kk w) (set_user (VRef (List.length h)) rq) rs
              (h ++ [mkObj PlainObject {[ "user" := v ]} VUndefined]))) /\
  (truthy v = true -> typeof v = TyObject ->
     knock impl schema type w =
     (Return v, mkWorld (w_kk w) (set_user v rq) rs h)) /\
  (truthy v = false ->
     knock impl schema type w = (Return v, mkWorld (w_kk w) rq rs h) /\
     truthy (user rq) = false).
Proof.
  intros Hg Hi v. rewrite (knock_unfold _ _ _ _ _ _ _ _ _ Hg Hi). fold v.
  split; [apply js_or_truthy|]. split; [apply js_or_falsy|].
  unfold setUser, bind, new, alloc, set_req, modify, ret.
  split; [|split].
  - intros Ht Hty. rewrite Ht. by rewrite bool_decide_false.
  - intros Ht Hty. rewrite Ht. by rewrite bool_decide_true.
  - intros Hf. rewrite Hf. split; [done|].
    unfold v, js_or in Hf. destruct (truthy r) eqn:Er; [congruence|done].
Qed.

(** [login] starts with the "set user" statement once [valid] holds. *)
Lemma login_starts_with_knock impl schema w :
  valid (w_kk w) (w_heap w) = Return true ->
  login impl schema w =
  bind (knock impl schema login_t) (fun usr =>
    do! check_headersSent schema in
    let! uerr := gets (fun w => unauthorizedError (w_req w)) in
    do! when (truthy usr && negb (truthy uerr))
          (let! p := gets (fun w =>
             _getParamFromReq (w_req w) (schemaInterface.interface auth_t)) in
           let! a := _preferSchema p (Some auth_t) in
           if truthy a then call_hook impl a "create" else ret tt) in
    do! call_hook impl schema "loginResponse" in
    do! call_global impl globalLoginResponse schema in
    ret VUndefined) w.
Proof.
  intros Hv. unfold login.
  erewrite bind_returned; [|unfold liftC; by rewrite Hv].
  erewrite bind_returned; [|reflexivity]. reflexivity.
Qed.

(** [login] and [auth] are their first statement followed by their other
    statements. *)
Lemma manual_after_knock impl schema type w :
  (type = login_t -> valid (w_kk w) (w_heap w) = Return true) ->
  _manual impl schema type w =
  bind (knock impl schema type) (manual_rest impl schema type) w.
Proof.
  intros Hv. destruct type; simpl; [|reflexivity].
  by rewrite (login_starts_with_knock _ _ _ (Hv eq_refl)).
Qed.

(** C9: the "set user" rule in an execution of [login] (and of [auth]).
    When the required method of the schema returns [r] and leaves the
    request [rq], the value [v] is [r], or [rq.user] when [r] is falsy.  The
    execution then goes on with its other statements from a world in
    which: a truthy [v] that is not an object has been stored as a new
    object [{user: v}] in [req.user]; a truthy object has been stored as it
    is; a falsy [v] has left the request as the method left it, [req.user]
    falsy. *)
Theorem C9_setUser_rule impl schema type w f r rq rs h :
  (type = login_t -> valid (w_kk w) (w_heap w) = Return true) ->
  get_prop (w_heap w) schema (schemaInterface.interface type) = Return (VFun f) ->
  impl f schema (w_req w, w_res w, w_heap w) = (Return r, (rq, rs, h)) ->
  let v := js_or r (user rq) in
  (truthy r = true -> v = r) /\
  (truthy r = false -> v = user rq) /\
  (truthy v = true -> typeof v <> TyObject ->
     _manual impl schema type w =
     manual_rest impl schema type (VRef (List.length h))
       (mkWorld (w_kk w) (set_user (VRef (List.length h)) rq) rs
                (h ++ [mkObj PlainObject {[ "user" := v ]} VUndefined]))) /\
  (truthy v = true -> typeof v = TyObject ->
     _manual impl schema type w =
     manual_rest impl schema type v (mkWorld (w_kk w) (set_user v rq) rs h)) /\
  (truthy v = false ->
     _manual impl schema type w =
     manual_rest impl schema type v (mkWorld (w_kk w) rq rs h) /\
     truthy (user rq) = false).
Proof.
  intros Hv Hg Hi v. rewrite (manual_after_knock _ _ _ _ Hv).
  destruct (knock_setUser_rule impl schema type w f r rq rs h Hg Hi)
    as (H1 & H2 & Hwrap & Hobj & Hfalsy).
  split; [exact H1|]. split; [exact H2|]. split; [|split].
  - intros Ht Hty. by erewrite bind_returned; [|by apply Hwrap].
  - intros Ht Hty. by erewrite bind_returned; [|by apply Hobj].
  - intros Ht. destruct (Hfalsy Ht) as [Hk Hu]. split; [|exact Hu].
    by erewrite bind_returned; [|exact Hk].
Qed.

(** Three executions of [login]: the login method returns a string, sets
    [req.user] to an object, does nothing. *)
Lemma C9_witness :
  _manual Scenario.impl (VRef 0) login_t Scenario.w_default =
    manual_rest Scenario.impl (VRef 0) login_t (VRef 1)
      (mkWorld (w_kk Scenario.w_default) (set_user (VRef 1) Scenario.req0) Scenario.res0
               (w_heap Scenario.w_default ++
                [mkObj PlainObject {[ "user" := VStr "alice" ]} VUndefined])) /\
  _manual Scenario.impl (VRef 0) login_t
      (Scenario.after (enable (VStr "A") 0 (VBool true) VNull)
                      (Scenario.fresh None [Scenario.login_schema 4])) =
    manual_rest Scenario.impl (VRef 0) login_t (VRef 1)
      (mkWorld (w_kk (Scenario.after (enable (VStr "A") 0 (VBool true) VNull)
                        (Scenario.fresh None [Scenario.login_schema 4])))
               (set_user (VRef 1) (set_user (VRef 1) Scenario.req0)) Scenario.res0
               (w_heap (Scenario.after (enable (VStr "A") 0 (VBool true) VNull)
                          (Scenario.fresh None [Scenario.login_schema 4])) ++
                [mkObj PlainObject {[ "id" := VNum 1 ]} VUndefined])) /\
  (_manual Scenario.impl (VRef 0) login_t
      (Scenario.after (enable (VStr "A") 0 (VBool true) VNull)
                      (Scenario.fresh None [Scenario.login_schema 2])) =
     manual_rest Scenario.impl (VRef 0) login_t VUndefined
       (mkWorld (w_kk (Scenario.after (enable (VStr "A") 0 (VBool true) VNull)
                         (Scenario.fresh None [Scenario.login_schema 2])))
                Scenario.req0 Scenario.res0
                (w_heap (Scenario.after (enable (VStr "A") 0 (VBool true) VNull)
                           (Scenario.fresh None [Scenario.login_schema 2])))) /\
   truthy (user Scenario.req0) = false).
Proof.
  split; [|split].
  - destruct (C9_setUser_rule Scenario.impl (VRef 0) login_t Scenario.w_default
                0 (VStr "alice") Scenario.req0 Scenario.res0
                (w_heap Scenario.w_default)
                (fun _ => eq_refl) eq_refl eq_refl) as (_ & _ & Hwrap & _ & _).
    apply Hwrap; [reflexivity|discriminate].
  - destruct (C9_setUser_rule Scenario.impl (VRef 0) login_t
                (Scenario.after (enable (VStr "A") 0 (VBool true) VNull)
                                (Scenario.fresh None [Scenario.login_schema 4]))
                4 VUndefined (set_user (VRef 1) Scenario.req0) Scenario.res0
                (w_heap (Scenario.after (enable (VStr "A") 0 (VBool true) VNull)
                           (Scenario.fresh None [Scenario.login_schema 4])) ++
                 [mkObj PlainObject {[ "id" := VNum 1 ]} VUndefined])
                (fun _ => eq_refl) eq_refl eq_refl) as (_ & _ & _ & Hobject & _).
    apply Hobject; reflexivity.
  - destruct (C9_setUser_rule Scenario.impl (VRef 0) login_t
                (Scenario.after (enable (VStr "A") 0 (VBool true) VNull)
                                (Scenario.fresh None [Scenario.login_schema 2]))
                2 VUndefined Scenario.req0 Scenario.res0
                (w_heap (Scenario.after (enable (VStr "A") 0 (VBool true) VNull)
                           (Scenario.fresh None [Scenario.login_schema 2])))
                (fun _ => eq_refl) eq_refl eq_refl) as (_ & _ & _ & _ & Hfalsy).
    apply Hfalsy; reflexivity.
Defined.

Lemma knock_returns impl schema type w f r rq rs h :
  get_prop (w_heap w) schema (schemaInterface.interface type) = Return (VFun f) ->
  impl f schema (w_req w, w_res w, w_heap w) = (Return r, (rq, rs, h)) ->
  exists u w1, knock impl schema type w = (Return u, w1) /\ w_res w1 = rs.
Proof.
  intros Hg Hi. rewrite (knock_unfold _ _ _ _ _ _ _ _ _ Hg Hi).
  unfold setUser, bind, new, alloc, set_req, modify, ret.
  destruct (truthy (js_or r (user rq))); [|by eexists _, _].
  destruct (negb _); by eexists _, _.
Qed.

Lemma check_headersSent_throws schema w :
  truthy (headersSent (w_res w)) = true ->
  check_headersSent schema w =
  (Throw (Thrown (VRef (List.length (w_heap w)))),
   mkWorld (w_kk w) (w_req w) (w_res w)
     (w_heap w ++
      [mkObj (UnauthorizedError "don't end res in schema" schema None) ∅ VUndefined])).
Proof.
  intros H. unfold check_headersSent, bind, gets, new_UnauthorizedError, new, throw.
  by rewrite H.
Qed.

(** C8: when the required method of the schema returns and leaves the
    response ended ([res.headersSent] truthy), [login] and [auth] throw a
    new [UnauthorizedError] with the message "don't end res in schema" and
    the schema; they do not return.  ([login] first asserts [valid].) *)
Theorem C8_headersSent_raises impl schema type w f r rq rs h :
  (type = login_t -> valid (w_kk w) (w_heap w) = Return true) ->
  get_prop (w_heap w) schema (schemaInterface.interface type) = Return (VFun f) ->
  impl f schema (w_req w, w_res w, w_heap w) = (Return r, (rq, rs, h)) ->
  truthy (headersSent rs) = true ->
  exists l w',
    _manual impl schema type w = (Throw (Thrown (VRef l)), w') /\
    w_heap w' !! l =
      Some (mkObj (UnauthorizedError "don't end res in schema" schema None) ∅ VUndefined) /\
    instanceof_UnauthorizedError (w_heap w') (Thrown (VRef l)) = true.
Proof.
  intros Hv Hg Hi Hs.
  destruct (knock_returns _ _ _ _ _ _ _ _ _ Hg Hi) as (u & w1 & Hk & Hr).
  assert (truthy (headersSent (w_res w1)) = true) as Hs1 by by rewrite Hr.
  pose proof (check_headersSent_throws schema w1 Hs1) as Hc.
  assert ((w_heap w1 ++
            [mkObj (UnauthorizedError "don't end res in schema" schema None) ∅ VUndefined])
          !! List.length (w_heap w1) =
          Some (mkObj (UnauthorizedError "don't end res in schema" schema None) ∅
                  VUndefined)) as Hl.
  { by apply list_lookup_middle. }
  exists (List.length (w_heap w1)). eexists. split; [|split].
  - destruct type; simpl.
    + unfold login.
      erewrite bind_returned; [|unfold liftC; by rewrite (Hv eq_refl)].
      erewrite bind_returned; [|reflexivity].
      erewrite bind_returned; [|exact Hk].
      erewrite bind_thrown; [|exact Hc]. reflexivity.
    + unfold auth.
      erewrite bind_returned; [|exact Hk].
      erewrite bind_thrown; [|exact Hc]. reflexivity.
  - exact Hl.
  - simpl. by rewrite Hl.
Qed.

(** A login method that ends the response. *)
Lemma C8_witness :
  exists l w',
    _manual Scenario.impl (VRef 0) login_t Scenario.w_ends =
      (Throw (Thrown (VRef l)), w') /\
    w_heap w' !! l =
      Some (mkObj (UnauthorizedError "don't end res in schema" (VRef 0) None) ∅
              VUndefined) /\
    instanceof_UnauthorizedError (w_heap w') (Thrown (VRef l)) = true.
Proof.
  apply (C8_headersSent_raises Scenario.impl (VRef 0) login_t Scenario.w_ends
           3 VUndefined Scenario.req0 (mkRes (VBool true)) (w_heap Scenario.w_ends)
           (fun _ => eq_refl) eq_refl eq_refl eq_refl).
Defined.

(** ** The middleware *)

(** C7, counterexample to the property as stated: the login method of the schema sets
    neither [req.user] nor [req.unauthorizedError] (it returns [undefined]
    and leaves the request as it was), the global login response hook then
    sets [req.user], and the middleware, routed through the engine, ends
    with [next()]; no [UnauthorizedError] is created. *)
Lemma C7_hook_sets_user_reaches_next :
  obj_prop (w_heap Scenario.w_hook) 0 "knockLogin" = VFun 2 /\
  Scenario.impl 2 (VRef 0)
    (w_req Scenario.w_hook, w_res Scenario.w_hook, w_heap Scenario.w_hook) =
    (Return VUndefined,
     (w_req Scenario.w_hook, w_res Scenario.w_hook, w_heap Scenario.w_hook)) /\
  (isInterfaceMethod (VRef 0) "login" Scenario.w_hook).1 = Return true /\
  let '(n, s, w) :=
    middleware Scenario.impl login_t "login" VUndefined Scenario.w_hook in
  n = Next /\ s = VRef 0 /\
  unauthorizedError (w_req w) = VUndefined /\
  List.map o_class (w_heap w) = [PlainObject; PlainObject].
Proof. vm_compute. repeat split; congruence. Qed.

(** C7, as the code has it: on an instance whose stored option
    [throwUnauthorizedError] is truthy, when a run of the middleware is
    routed through the engine ([schema[method]] is one of the two required
    methods of the schema) and the engine returns with [req.user] and
    [req.unauthorizedError] both falsy, a new [UnauthorizedError] with the
    message below and the schema is stored in [req.unauthorizedError], and
    [next] is called with that error. *)
Theorem C7_synthesized_error impl type method schema w s w0 m r w1 :
  truthy (throwUnauthorizedError (options (w_kk w))) = true ->
  resolve type schema w = (Return s, w0) ->
  truthy s = true ->
  get_prop (w_heap w0) s method = Return m ->
  typeof m = TyFunction ->
  isInterfaceMethod s method w0 = (Return true, w0) ->
  _manual impl s type w0 = (Return r, w1) ->
  truthy (user (w_req w1)) = false ->
  truthy (unauthorizedError (w_req w1)) = false ->
  let l := List.length (w_heap w1) in
  let err :=
    mkObj (UnauthorizedError
             "must set req.user if login/auth success or set req.unauthorizedError otherwise"
             s None) ∅ VUndefined in
  exists w2,
    middleware impl type method schema w = (NextWith (VRef l), s, w2) /\
    unauthorizedError (w_req w2) = VRef l /\
    w_heap w2 !! l = Some err.
Proof.
  intros Ho Hr Hs Hm Hty Him Hman Hu He l err.
  pose proof (manual_returns_undefined _ _ _ _ _ _ Hman) as ->.
  pose proof (keeps_resolve _ _ _ _ _ Hr) as Ho0.
  pose proof (keeps_manual _ _ _ _ _ _ Hman) as Ho1.
  set (w2 := mkWorld (w_kk w1) (set_unauthorizedError (VRef l) (w_req w1))
                     (w_res w1) (w_heap w1 ++ [err])).
  assert (w_heap w2 !! l = Some err) as Hl by by apply list_lookup_middle.
  assert (dispatch impl type method s w0 = (Throw (Thrown (VRef l)), w2)) as Hd.
  { unfold dispatch. rewrite Hs.
    erewrite bind_returned; [|unfold liftC; by rewrite Hm].
    rewrite bool_decide_true by done. simpl.
    erewrite bind_returned; [|reflexivity].
    erewrite bind_returned; [|exact Him].
    erewrite bind_returned; [|].
    2:{ erewrite bind_returned; [|exact Hman].
        erewrite bind_returned; [|reflexivity].
        erewrite bind_returned; [|reflexivity].
        unfold js_or; simpl. rewrite Hu, He. simpl.
        erewrite bind_returned; [|reflexivity]. reflexivity. }
    erewrite bind_returned; [|reflexivity]. reflexivity. }
  exists w2. split; [|split; [done|exact Hl]].
  unfold middleware. rewrite Hr, Hd. unfold on_error.
  assert (instanceof_UnauthorizedError (w_heap w2) (Thrown (VRef l)) = true) as ->.
  { unfold instanceof_UnauthorizedError. by rewrite Hl. }
  assert (truthy (throwUnauthorizedError (options (w_kk w2))) = true) as ->.
  { simpl. by rewrite Ho1, Ho0. }
  reflexivity.
Qed.

(** A login method that does nothing, and no hook. *)
Lemma C7_witness :
  exists w2,
    middleware Scenario.impl login_t "login" VUndefined
      (Scenario.after (enable (VStr "A") 0 (VBool true) VNull)
                      (Scenario.fresh None [Scenario.login_schema 2])) =
      (NextWith (VRef 1), VRef 0, w2) /\
    unauthorizedError (w_req w2) = VRef 1 /\
    w_heap w2 !! 1 =
      Some (mkObj (UnauthorizedError
             "must set req.user if login/auth success or set req.unauthorizedError otherwise"
             (VRef 0) None) ∅ VUndefined).
Proof.
  apply (C7_synthesized_error Scenario.impl login_t "login" VUndefined
           (Scenario.after (enable (VStr "A") 0 (VBool true) VNull)
                           (Scenario.fresh None [Scenario.login_schema 2]))
           (VRef 0)
           (Scenario.after (resolve login_t VUndefined)
              (Scenario.after (enable (VStr "A") 0 (VBool true) VNull)
                              (Scenario.fresh None [Scenario.login_schema 2])))
           (VFun 2) VUndefined
           (Scenario.after (resolve login_t VUndefined)
              (Scenario.after (enable (VStr "A") 0 (VBool true) VNull)
                              (Scenario.fresh None [Scenario.login_schema 2]))));
    reflexivity.
Defined.

(** The rest of the [try] block keeps the options too. *)
Lemma keeps_dispatch impl type method schema :
  keeps_options (dispatch impl type method schema).
Proof.
  unfold dispatch, isInterfaceMethod, new_UnauthorizedError.
  pose proof (keeps_manual impl schema type). keeps.
Qed.

(** On an instance whose stored option [throwUnauthorizedError] is truthy, a
    run of the middleware ends either with [next()], at the end of the [try]
    block, or with [next] called on what [req.unauthorizedError] holds at
    that time: the [else] branch of the [catch] block is not taken. *)
Lemma middleware_next impl type method schema w n s w' :
  truthy (throwUnauthorizedError (options (w_kk w))) = true ->
  middleware impl type method schema w = (n, s, w') ->
  n = Next \/ n = NextWith (unauthorizedError (w_req w')).
Proof.
  intros Ho. unfold middleware.
  assert (forall sc e w1 n1 w2,
            options (w_kk w1) = options (w_kk w) ->
            on_error sc e w1 = (n1, w2) ->
            n1 = NextWith (unauthorizedError (w_req w2))) as Herr.
  { intros sc e w1 n1 w2 Hk. unfold on_error, alloc.
    destruct (instanceof_UnauthorizedError _ _); simpl;
      rewrite Hk, Ho;
      by intros [= <- <-]. }
  destruct (resolve type schema w) as [[s0|e] w1] eqn:Hr.
  - destruct (dispatch impl type method s0 w1) as [[[]|e] w2] eqn:Hd.
    + intros [= <- _ _]. by left.
    + destruct (on_error s0 e w2) as [n1 w3] eqn:He. intros [= <- _ <-]. right.
      eapply Herr; [|exact He].
      apply keeps_dispatch in Hd. apply keeps_resolve in Hr. congruence.
  - destruct (on_error schema e w1) as [n1 w3] eqn:He. intros [= <- _ <-]. right.
    eapply Herr; [|exact He]. by apply keeps_resolve in Hr.
Qed.


(** * Further properties of the registry *)

Lemma Map_get_set_ne m k k' s :
  k <> k' -> Map_get (Map_set m k s) k' = Map_get m k'.
Proof.
  intros Hne. unfold Map_get. induction m as [|[k0 s0] m IH]; simpl.
  - by rewrite bool_decide_false.
  - destruct (bool_decide (k0 = k)) eqn:E; simpl.
    + apply bool_decide_eq_true in E; subst. by rewrite !bool_decide_false.
    + destruct (bool_decide (k0 = k')); [done|apply IH].
Qed.

Lemma Map_get_delete_eq m k : Map_get (Map_delete m k) k = VUndefined.
Proof.
  unfold Map_get, Map_delete. induction m as [|[k0 s0] m IH]; simpl; [done|].
  destruct (bool_decide (k0 = k)) eqn:E; simpl; [apply IH|].
  rewrite E. apply IH.
Qed.

Lemma Map_get_delete_ne m k k' :
  k <> k' -> Map_get (Map_delete m k) k' = Map_get m k'.
Proof.
  intros Hne. unfold Map_get, Map_delete.
  induction m as [|[k0 s0] m IH]; simpl; [done|].
  destruct (bool_decide (k0 = k)) eqn:E; simpl.
  - apply bool_decide_eq_true in E; subst. by rewrite bool_decide_false.
  - destruct (bool_decide (k0 = k')); [done|apply IH].
Qed.

Lemma Map_delete_set_fresh m k s :
  Map_get m k = VUndefined -> Map_delete (Map_set m k s) k = m.
Proof.
  unfold Map_get, Map_delete. induction m as [|[k0 s0] m IH]; simpl.
  - by rewrite bool_decide_true.
  - destruct (bool_decide (k0 = k)) eqn:E; simpl; [done|].
    intros H. rewrite E; simpl. f_equal. by apply IH.
Qed.

Lemma Map_keys_set m k s k' :
  k' ∈ Map_keys (Map_set m k s) -> k' = k \/ k' ∈ Map_keys m.
Proof.
  unfold Map_keys. intros ([k0 s0] & -> & Hin)%list_elem_of_fmap.
  apply elem_of_Map_set in Hin as [[= -> ->]|Hin]; [by left|right].
  by apply (list_elem_of_fmap_2 fst) in Hin.
Qed.

Lemma Map_set_NoDup m k s : NoDup (Map_keys m) -> NoDup (Map_keys (Map_set m k s)).
Proof.
  unfold Map_keys. induction m as [|[k0 s0] m IH]; simpl.
  - intros _. apply NoDup_cons. split; [apply not_elem_of_nil|apply NoDup_nil_2].
  - intros [Hnin Hnd]%NoDup_cons.
    destruct (bool_decide (k0 = k)) eqn:E; simpl.
    + apply bool_decide_eq_true in E; subst. by apply NoDup_cons.
    + apply bool_decide_eq_false in E. apply NoDup_cons. split; [|by apply IH].
      intros [->|Hin]%Map_keys_set; done.
Qed.

Lemma Map_delete_NoDup m k : NoDup (Map_keys m) -> NoDup (Map_keys (Map_delete m k)).
Proof.
  unfold Map_keys. induction m as [|[k0 s0] m IH]; simpl; [done|].
  intros [Hnin Hnd]%NoDup_cons.
  destruct (bool_decide (k0 = k)); simpl; [by apply IH|].
  apply NoDup_cons. split; [|by apply IH].
  intros ([k1 s1] & Hk & Hin)%list_elem_of_fmap. simpl in Hk; subst.
  apply elem_of_Map_delete in Hin as [Hin _].
  by apply (list_elem_of_fmap_2 fst) in Hin.
Qed.

(** What [enable] does, in full: it returns exactly when the name it ends up
    with is truthy, and then the world is the one below. *)
Lemma enable_effect name schema setDefault verifyLogin w :
  let h := w_heap w in
  let nm := if usable_name name then name else obj_prop h schema "name" in
  let h1 := if usable_name name then alter (set_obj_prop "name" name) schema h else h in
  let h2 := alter (set_obj_symbolDefault (default_param setDefault (VBool false)))
                  schema h1 in
  let h3 := if usable_verify (default_param verifyLogin VNull)
            then alter (set_obj_prop "verify" (default_param verifyLogin VNull)) schema h2
            else h2 in
  enable name schema setDefault verifyLogin w =
  if truthy nm
  then (Return tt,
        mkWorld (mkKnockKnock (Map_set (schemas (w_kk w)) nm schema) ∅ (options (w_kk w)))
                (w_req w) (w_res w) h3)
  else (Throw AssertionError, w).
Proof.
  unfold enable, usable_name, usable_verify, bind, set_prop, set_symbolDefault,
    set_schemas, set_defaultSchemasCache, set_heap, set_kk, modify, liftC, ret, when.
  destruct (truthy name && bool_decide (typeof name = TyString)) eqn:En; simpl.
  - apply andb_true_iff in En as [En _]. rewrite En; simpl.
    by destruct (truthy (default_param verifyLogin VNull) && _).
  - destruct (truthy (obj_prop (w_heap w) schema "name")); simpl; [|done].
    by destruct (truthy (default_param verifyLogin VNull) && _).
Qed.

Lemma obj_prop_set_eq h l k v :
  l < List.length h -> obj_prop (alter (set_obj_prop k v) l h) l k = v.
Proof.
  intros Hl. unfold obj_prop. rewrite list_lookup_alter_eq.
  destruct (lookup_lt_is_Some_2 h l Hl) as [o ->]. simpl.
  by rewrite lookup_insert_eq.
Qed.

(** X2: where a schema is found after [enable].  A call of [enable] that
    returns has stored the schema under the name [nm] it ended up with (the
    first argument when that is a non-empty string, [schema.name]
    otherwise): a lookup of [nm] gives this schema, the lookup of any other
    name is what it was, and [_preferSchema(nm)] without a type returns the
    schema and changes nothing. *)
Theorem X2_enable_then_lookup name schema setDefault verifyLogin w w' :
  enable name schema setDefault verifyLogin w = (Return tt, w') ->
  let nm := if usable_name name then name else obj_prop (w_heap w) schema "name" in
  (forall k, Map_get (schemas (w_kk w')) k =
             if decide (k = nm) then VRef schema else Map_get (schemas (w_kk w)) k) /\
  _preferSchema nm None w' = (Return (VRef schema), w').
Proof.
  intros He nm. rewrite enable_effect in He. fold nm in He.
  destruct (truthy nm) eqn:Hnm; [|done]. injection He as <-.
  assert (forall k, Map_get (Map_set (schemas (w_kk w)) nm schema) k =
            if decide (k = nm) then VRef schema else Map_get (schemas (w_kk w)) k) as Hk.
  { intros k. destruct (decide (k = nm)) as [->|Hne]; [apply Map_get_set|].
    by apply Map_get_set_ne. }
  split; [exact Hk|].
  unfold _preferSchema, bind, gets, ret. rewrite Hnm. simpl.
  rewrite Hk. by rewrite decide_True.
Qed.

(** Enable ["A"] on a new instance. *)
Lemma X2_witness :
  (forall k,
     Map_get (schemas (w_kk Scenario.w_default)) k =
     if decide (k = VStr "A") then VRef 0 else VUndefined) /\
  _preferSchema (VStr "A") None Scenario.w_default = (Return (VRef 0), Scenario.w_default).
Proof.
  exact (X2_enable_then_lookup (VStr "A") 0 (VBool true) VNull
           (Scenario.fresh None [Scenario.login_schema 0]) Scenario.w_default eq_refl).
Defined.

(** X3: which calls of [enable] are rejected.  A first argument that is a
    non-empty string is always accepted, and is written to [schema.name].
    Any other first argument is ignored: the call uses [schema.name], and
    it fails with an [AssertionError], before anything is changed, exactly
    when [schema.name] is falsy. *)
Theorem X3_enable_name_rule name schema setDefault verifyLogin w :
  (usable_name name = true ->
   exists w', enable name schema setDefault verifyLogin w = (Return tt, w') /\
              (schema < List.length (w_heap w) ->
               obj_prop (w_heap w') schema "name" = name)) /\
  (usable_name name = false ->
   (truthy (obj_prop (w_heap w) schema "name") = false ->
    enable name schema setDefault verifyLogin w = (Throw AssertionError, w)) /\
   (truthy (obj_prop (w_heap w) schema "name") = true ->
    exists w', enable name schema setDefault verifyLogin w = (Return tt, w') /\
               obj_prop (w_heap w') schema "name" = obj_prop (w_heap w) schema "name" /\
               Map_get (schemas (w_kk w')) (obj_prop (w_heap w) schema "name") =
               VRef schema)).
Proof.
  rewrite enable_effect. split.
  - intros Hu. rewrite Hu.
    assert (truthy name = true) as ->.
    { unfold usable_name in Hu. by apply andb_true_iff in Hu as [? _]. }
    eexists. split; [reflexivity|]. simpl. intros Hl.
    destruct (usable_verify (default_param verifyLogin VNull));
      rewrite ?obj_prop_set_ne, obj_prop_set_symbolDefault by done;
      by apply obj_prop_set_eq.
  - intros Hu. rewrite Hu. split; intros Hn; rewrite Hn; [done|].
    eexists. split; [reflexivity|]. simpl. split; [|apply Map_get_set].
    destruct (usable_verify (default_param verifyLogin VNull));
      by rewrite ?obj_prop_set_ne, obj_prop_set_symbolDefault.
Qed.

(** A string name; the name [42] with a schema that has no name; the name
    [42] with a schema named ["S"]. *)
Lemma X3_witness :
  (exists w', enable (VStr "A") 0 (VBool true) VNull
                (Scenario.fresh None [Scenario.login_schema 0]) = (Return tt, w') /\
              (0 < 1 -> obj_prop (w_heap w') 0 "name" = VStr "A")) /\
  enable (VNum 42) 0 (VBool true) VNull (Scenario.fresh None [Scenario.login_schema 0]) =
    (Throw AssertionError, Scenario.fresh None [Scenario.login_schema 0]) /\
  (exists w', enable (VNum 42) 0 (VBool true) VNull
                (Scenario.fresh None [set_obj_prop "name" (VStr "S") (Scenario.login_schema 0)]) =
                (Return tt, w') /\
              obj_prop (w_heap w') 0 "name" = VStr "S" /\
              Map_get (schemas (w_kk w')) (VStr "S") = VRef 0).
Proof.
  split; [|split].
  - exact (proj1 (X3_enable_name_rule (VStr "A") 0 (VBool true) VNull
                    (Scenario.fresh None [Scenario.login_schema 0])) eq_refl).
  - exact (proj1 (proj2 (X3_enable_name_rule (VNum 42) 0 (VBool true) VNull
                           (Scenario.fresh None [Scenario.login_schema 0])) eq_refl)
             eq_refl).
  - exact (proj2 (proj2 (X3_enable_name_rule (VNum 42) 0 (VBool true) VNull
                           (Scenario.fresh None
                              [set_obj_prop "name" (VStr "S") (Scenario.login_schema 0)]))
                    eq_refl) eq_refl).
Defined.

(** X4: what [disable] does.  With a falsy name it fails with an
    [AssertionError] and changes nothing.  With a truthy name it always
    returns, also when the name is not registered: afterwards the name is
    not found, every other name is found as before, and the schema objects,
    the options and the request are untouched. *)
Theorem X4_disable_rule name w :
  (truthy name = false -> disable name w = (Throw AssertionError, w)) /\
  (truthy name = true ->
   exists w', disable name w = (Return tt, w') /\
     (forall k, Map_get (schemas (w_kk w')) k =
                if decide (k = name) then VUndefined else Map_get (schemas (w_kk w)) k) /\
     w_heap w' = w_heap w /\ options (w_kk w') = options (w_kk w) /\
     w_req w' = w_req w /\ w_res w' = w_res w).
Proof.
  unfold disable, bind, set_schemas, set_defaultSchemasCache, set_kk, modify,
    assert, ret, throw.
  split; intros ->; simpl; [done|].
  eexists. split; [reflexivity|]. simpl. split; [|done].
  intros k. destruct (decide (k = name)) as [->|Hne]; [apply Map_get_delete_eq|].
  by apply Map_get_delete_ne.
Qed.

(** [disable(undefined)], and [disable("A")] with ["A"] and ["B"] registered. *)
Lemma X4_witness :
  disable VUndefined Scenario.w_two = (Throw AssertionError, Scenario.w_two) /\
  exists w', disable (VStr "A") Scenario.w_two = (Return tt, w') /\
     (forall k, Map_get (schemas (w_kk w')) k =
                if decide (k = VStr "A") then VUndefined
                else Map_get (schemas (w_kk Scenario.w_two)) k) /\
     w_heap w' = w_heap Scenario.w_two /\
     options (w_kk w') = options (w_kk Scenario.w_two) /\
     w_req w' = w_req Scenario.w_two /\ w_res w' = w_res Scenario.w_two.
Proof.
  split.
  - exact (proj1 (X4_disable_rule VUndefined Scenario.w_two) eq_refl).
  - exact (proj2 (X4_disable_rule (VStr "A") Scenario.w_two) eq_refl).
Defined.

(** X5: names are unique.  The registry of a new instance has no duplicate
    key, and [enable] and [disable] keep it so: enabling a name that is
    already registered replaces its schema in place, with the same number of
    entries, and enabling a new name adds one entry at the end. *)
Theorem X5_names_unique w :
  NoDup (Map_keys (schemas (w_kk w))) ->
  (forall name schema setDefault verifyLogin w',
     enable name schema setDefault verifyLogin w = (Return tt, w') ->
     let nm := if usable_name name then name else obj_prop (w_heap w) schema "name" in
     NoDup (Map_keys (schemas (w_kk w'))) /\
     (nm ∈ Map_keys (schemas (w_kk w)) ->
      Map_keys (schemas (w_kk w')) = Map_keys (schemas (w_kk w))) /\
     (nm ∉ Map_keys (schemas (w_kk w)) ->
      schemas (w_kk w') = schemas (w_kk w) ++ [(nm, schema)])) /\
  (forall name w', disable name w = (Return tt, w') ->
     NoDup (Map_keys (schemas (w_kk w')))).
Proof.
  intros Hnd. split.
  - intros name schema setDefault verifyLogin w' He nm.
    rewrite enable_effect in He. fold nm in He.
    destruct (truthy nm); [|done]. injection He as <-. simpl.
    split; [by apply Map_set_NoDup|]. clear Hnd. unfold Map_keys.
    split; induction (schemas (w_kk w)) as [|[k0 s0] m IH]; simpl.
    + by intros ?%elem_of_nil.
    + intros [Heq|Hin]%elem_of_cons.
      * subst. by rewrite bool_decide_true.
      * destruct (bool_decide (k0 = nm)) eqn:E; simpl.
        -- apply bool_decide_eq_true in E. by subst.
        -- f_equal. by apply IH.
    + done.
    + intros Hnin. apply not_elem_of_cons in Hnin as [Hne Hnin].
      rewrite bool_decide_false by done. f_equal. by apply IH.
  - intros name w' Hd. apply disable_returns in Hd as (-> & _).
    by apply Map_delete_NoDup.
Qed.

(** On a new instance, whose registry is empty. *)
Lemma X5_witness :
  NoDup (Map_keys (schemas (w_kk Scenario.w_default))) /\
  schemas (w_kk Scenario.w_default) = [] ++ [(VStr "A", 0)].
Proof.
  destruct (X5_names_unique (Scenario.fresh None [Scenario.login_schema 0])
              (NoDup_nil_2 : NoDup (Map_keys [])))
    as [He _].
  destruct (He (VStr "A") 0 (VBool true) VNull Scenario.w_default eq_refl)
    as (Hnd & _ & Hnew).
  split; [exact Hnd|]. apply Hnew. apply not_elem_of_nil.
Defined.

(** X6: enabling a schema under a name that is not registered and then
    disabling that name gives back the registry as it was.  The schema
    object keeps what [enable] wrote on it. *)
Theorem X6_enable_disable_round_trip name schema setDefault verifyLogin w w1 :
  enable name schema setDefault verifyLogin w = (Return tt, w1) ->
  let nm := if usable_name name then name else obj_prop (w_heap w) schema "name" in
  Map_get (schemas (w_kk w)) nm = VUndefined ->
  exists w2, disable nm w1 = (Return tt, w2) /\
             schemas (w_kk w2) = schemas (w_kk w) /\
             w_heap w2 = w_heap w1.
Proof.
  intros He nm Hfresh. rewrite enable_effect in He. fold nm in He.
  destruct (truthy nm) eqn:Hnm; [|done]. injection He as <-.
  unfold disable, bind, set_schemas, set_defaultSchemasCache, set_kk, modify,
    assert, ret. rewrite Hnm. simpl.
  eexists. split; [reflexivity|]. simpl. split; [|done].
  by apply Map_delete_set_fresh.
Qed.

(** Enable ["A"] on a new instance, then disable it. *)
Lemma X6_witness :
  exists w2, disable (VStr "A") Scenario.w_default = (Return tt, w2) /\
             schemas (w_kk w2) = [] /\
             w_heap w2 = w_heap Scenario.w_default.
Proof.
  exact (X6_enable_disable_round_trip (VStr "A") 0 (VBool true) VNull
           (Scenario.fresh None [Scenario.login_schema 0]) Scenario.w_default
           eq_refl eq_refl).
Defined.

Lemma obj_symbolDefault_set_prop h l l' k v :
  obj_symbolDefault (alter (set_obj_prop k v) l h) l' = obj_symbolDefault h l'.
Proof.
  unfold obj_symbolDefault. destruct (decide (l = l')) as [->|Hl].
  - rewrite list_lookup_alter_eq. by destruct (h !! l').
  - by rewrite list_lookup_alter_ne.
Qed.

Lemma obj_symbolDefault_set_eq h l v :
  l < List.length h ->
  obj_symbolDefault (alter (set_obj_symbolDefault v) l h) l = v.
Proof.
  intros Hl. unfold obj_symbolDefault. rewrite list_lookup_alter_eq.
  by destruct (lookup_lt_is_Some_2 h l Hl) as [o ->].
Qed.

Lemma usable_verify_default v :
  usable_verify (default_param v VNull) = usable_verify v /\
  (usable_verify v = true -> default_param v VNull = v).
Proof. by destruct v. Qed.

(** X7: [enable] writes on the schema object itself, and on nothing else.
    After a call that returns, every other object is what it was; the
    default flag of the schema object is the argument [setDefault], or
    [false] when that argument is [undefined] (the default value of the
    parameter); its [verify] property is [verifyLogin] when that is a
    function and is unchanged otherwise; its properties other than [name]
    and [verify] are unchanged.  (So a schema object enabled under two
    names has, under both, the flag of the last call.) *)
Theorem X7_enable_writes_on_schema name schema setDefault verifyLogin w w' :
  enable name schema setDefault verifyLogin w = (Return tt, w') ->
  List.length (w_heap w') = List.length (w_heap w) /\
  (forall l, l <> schema -> w_heap w' !! l = w_heap w !! l) /\
  (schema < List.length (w_heap w) ->
   obj_symbolDefault (w_heap w') schema =
     (if bool_decide (setDefault = VUndefined) then VBool false else setDefault) /\
   obj_prop (w_heap w') schema "verify" =
     (if usable_verify verifyLogin then verifyLogin
      else obj_prop (w_heap w) schema "verify")) /\
  (forall k, k <> "name" -> k <> "verify" ->
     obj_prop (w_heap w') schema k = obj_prop (w_heap w) schema k) /\
  w_req w' = w_req w /\ w_res w' = w_res w.
Proof.
  intros He. rewrite enable_effect in He.
  destruct (truthy _); [|done]. injection He as <-. simpl.
  destruct (usable_verify_default verifyLogin) as [Huv Hv]. rewrite Huv.
  fold (default_param setDefault (VBool false)).
  split; [|split; [|split; [|split]]].
  - destruct (usable_verify verifyLogin), (usable_name name);
      by rewrite !length_alter.
  - intros l Hl.
    destruct (usable_verify verifyLogin), (usable_name name);
      by rewrite !list_lookup_alter_ne.
  - intros Hs. split.
    + destruct (usable_verify verifyLogin), (usable_name name);
        rewrite ?obj_symbolDefault_set_prop;
        apply obj_symbolDefault_set_eq; by rewrite ?length_alter.
    + destruct (usable_verify verifyLogin) eqn:Eu, (usable_name name).
      * rewrite (Hv eq_refl). apply obj_prop_set_eq. by rewrite !length_alter.
      * rewrite (Hv eq_refl). apply obj_prop_set_eq. by rewrite !length_alter.
      * by rewrite obj_prop_set_symbolDefault, obj_prop_set_ne.
      * by rewrite obj_prop_set_symbolDefault.
  - intros k Hn Hv'.
    destruct (usable_verify verifyLogin), (usable_name name);
      by rewrite ?obj_prop_set_ne, obj_prop_set_symbolDefault, ?obj_prop_set_ne.
  - done.
Qed.

(** Enable ["A"] as a default with the function [7] as [verifyLogin], and
    enable ["A"] with [undefined] for [setDefault]. *)
Lemma X7_witness :
  (obj_symbolDefault
     (w_heap (Scenario.after (enable (VStr "A") 0 (VBool true) (VFun 7))
                             (Scenario.fresh None [Scenario.login_schema 0]))) 0 =
     VBool true /\
   obj_prop
     (w_heap (Scenario.after (enable (VStr "A") 0 (VBool true) (VFun 7))
                             (Scenario.fresh None [Scenario.login_schema 0]))) 0 "verify" =
     VFun 7) /\
  (obj_symbolDefault
     (w_heap (Scenario.after (enable (VStr "A") 0 VUndefined VUndefined)
                             (Scenario.fresh None [Scenario.login_schema 0]))) 0 =
     VBool false /\
   obj_prop
     (w_heap (Scenario.after (enable (VStr "A") 0 VUndefined VUndefined)
                             (Scenario.fresh None [Scenario.login_schema 0]))) 0 "verify" =
     VUndefined).
Proof.
  split.
  - destruct (X7_enable_writes_on_schema (VStr "A") 0 (VBool true) (VFun 7)
                (Scenario.fresh None [Scenario.login_schema 0])
                (Scenario.after (enable (VStr "A") 0 (VBool true) (VFun 7))
                                (Scenario.fresh None [Scenario.login_schema 0]))
                eq_refl) as (_ & _ & H & _).
    apply H. simpl. lia.
  - destruct (X7_enable_writes_on_schema (VStr "A") 0 VUndefined VUndefined
                (Scenario.fresh None [Scenario.login_schema 0])
                (Scenario.after (enable (VStr "A") 0 VUndefined VUndefined)
                                (Scenario.fresh None [Scenario.login_schema 0]))
                eq_refl) as (_ & _ & H & _).
    apply H. simpl. lia.
Defined.

(** * Further properties of schema resolution *)

Lemma is_default_for_ref h type s :
  is_default_for h type (VRef s) = Return (qualifies h type s).
Proof.
  unfold is_default_for, qualifies; simpl.
  by destruct (truthy (obj_symbolDefault h s)).
Qed.

(** [find] returns the first stored schema that qualifies, in the order of
    the registry, and [undefined] when none does. *)
Lemma find_default_first h type (m : SchemaMap) :
  (js_find (is_default_for h type) (Map_values m) = Return VUndefined /\
   forall k s, (k, s) ∈ m -> qualifies h type s = false) \/
  (exists pre k s post,
     m = pre ++ (k, s) :: post /\
     js_find (is_default_for h type) (Map_values m) = Return (VRef s) /\
     qualifies h type s = true /\
     forall k' s', (k', s') ∈ pre -> qualifies h type s' = false).
Proof.
  induction m as [|[k s] m IH]; simpl.
  - left. split; [done|]. by intros k s ?%elem_of_nil.
  - rewrite is_default_for_ref. destruct (qualifies h type s) eqn:Eq; simpl.
    + right. exists [], k, s, m. split; [done|]. split; [done|]. split; [done|].
      by intros k' s' ?%elem_of_nil.
    + destruct IH as [[Hf Hall]|(pre & k1 & s1 & post & -> & Hf & Hq & Hpre)].
      * left. split; [done|]. intros k' s' [[= -> ->]|Hin]%elem_of_cons; eauto.
      * right. exists ((k, s) :: pre), k1, s1, post.
        split; [done|]. split; [done|]. split; [done|].
        intros k' s' [[= -> ->]|Hin]%elem_of_cons; eauto.
Qed.

(** X8: which schema is the default.  When no name is given and the cache
    holds nothing for the type (as after every [enable] or [disable]),
    [_preferSchema] returns the first schema, in the order of registration,
    whose default flag is truthy and which has the required method of the
    type; it returns [undefined] when no stored schema is such.  The answer
    is written to the cache. *)
Theorem X8_default_is_first_qualifying name type w :
  truthy name = false ->
  truthy (field (defaultSchemasCache (w_kk w)) (schemaInterface.type_key type)) = false ->
  exists r w1,
    _preferSchema name (Some type) w = (Return r, w1) /\
    field (defaultSchemasCache (w_kk w1)) (schemaInterface.type_key type) = r /\
    ((r = VUndefined /\
      forall k s, (k, s) ∈ schemas (w_kk w) -> qualifies (w_heap w) type s = false) \/
     (exists pre k s post,
        schemas (w_kk w) = pre ++ (k, s) :: post /\
        r = VRef s /\
        qualifies (w_heap w) type s = true /\
        forall k' s', (k', s') ∈ pre -> qualifies (w_heap w) type s' = false)).
Proof.
  intros Hn Hc. unfold _preferSchema. rewrite Hn.
  unfold bind, gets, liftC, ret, set_defaultSchemasCache, set_kk, modify.
  rewrite Hc. simpl.
  assert (forall r, field (<[schemaInterface.type_key type := r]>
                             (defaultSchemasCache (w_kk w)))
                          (schemaInterface.type_key type) = r) as Hf.
  { intros r. unfold field. by rewrite lookup_insert_eq. }
  destruct (find_default_first (w_heap w) type (schemas (w_kk w)))
    as [[Hr Hall]|(pre & k & s & post & Hm & Hr & Hq & Hpre)];
    rewrite Hr; simpl; rewrite Hf; eexists _, _;
    (split; [reflexivity|]); simpl; (split; [apply Hf|]).
  - left. by split.
  - right. by exists pre, k, s, post.
Qed.

(** Two default login schemas: the one registered first is the default. *)
Lemma X8_witness :
  exists r w1,
    _preferSchema VUndefined (Some login_t)
      (Scenario.after (enable (VStr "B") 1 (VBool true) VNull)
         (Scenario.after (enable (VStr "A") 0 (VBool true) VNull)
            (Scenario.fresh None [Scenario.login_schema 0; Scenario.login_schema 5]))) =
      (Return r, w1) /\
    field (defaultSchemasCache (w_kk w1)) "login" = r /\
    ((r = VUndefined /\
      forall k s, (k, s) ∈ [(VStr "A", 0); (VStr "B", 1)] ->
        qualifies (w_heap (Scenario.after (enable (VStr "B") 1 (VBool true) VNull)
           (Scenario.after (enable (VStr "A") 0 (VBool true) VNull)
              (Scenario.fresh None [Scenario.login_schema 0; Scenario.login_schema 5]))))
          login_t s = false) \/
     (exists pre k s post,
        [(VStr "A", 0); (VStr "B", 1)] = pre ++ (k, s) :: post /\
        r = VRef s /\
        qualifies (w_heap (Scenario.after (enable (VStr "B") 1 (VBool true) VNull)
           (Scenario.after (enable (VStr "A") 0 (VBool true) VNull)
              (Scenario.fresh None [Scenario.login_schema 0; Scenario.login_schema 5]))))
          login_t s = true /\
        forall k' s', (k', s') ∈ pre ->
          qualifies (w_heap (Scenario.after (enable (VStr "B") 1 (VBool true) VNull)
             (Scenario.after (enable (VStr "A") 0 (VBool true) VNull)
                (Scenario.fresh None [Scenario.login_schema 0; Scenario.login_schema 5]))))
            login_t s' = false)).
Proof.
  exact (X8_default_is_first_qualifying VUndefined login_t
           (Scenario.after (enable (VStr "B") 1 (VBool true) VNull)
              (Scenario.after (enable (VStr "A") 0 (VBool true) VNull)
                 (Scenario.fresh None [Scenario.login_schema 0; Scenario.login_schema 5])))
           eq_refl eq_refl).
Defined.

(** X9: [_preferSchema] reads, it does not register.  Whatever its
    arguments and its result (a value or a [TypeError]), the registry, the
    options, the schema objects, the request and the response are
    afterwards what they were; only the cache entry of the given type may
    have changed, and nothing at all changes when a name is given or no
    type is given. *)
Theorem X9_preferSchema_frame name type w c w' :
  _preferSchema name type w = (c, w') ->
  schemas (w_kk w') = schemas (w_kk w) /\
  options (w_kk w') = options (w_kk w) /\
  w_heap w' = w_heap w /\ w_req w' = w_req w /\ w_res w' = w_res w /\
  (forall k, (forall t, type = Some t -> k <> schemaInterface.type_key t) ->
     defaultSchemasCache (w_kk w') !! k = defaultSchemasCache (w_kk w) !! k) /\
  (truthy name = true \/ type = None -> w' = w).
Proof.
  unfold _preferSchema, bind, gets, liftC, ret, set_defaultSchemasCache, set_kk, modify.
  destruct (truthy name) eqn:Hn.
  - destruct type as [t|]; simpl.
    + destruct (schemaInterface.hasRequiredFunction _ _ _); by intros [= <- <-].
    + by intros [= <- <-].
  - destruct type as [t|]; simpl; [|by intros [= <- <-]].
    destruct (truthy (field _ _)); simpl.
    + intros [= <- <-]. do 6 (split; [done|]). by intros [|].
    + destruct (find_default_values (w_heap w) t (schemas (w_kk w))) as [r ->].
      simpl. intros [= <- <-]. simpl. do 5 (split; [done|]). split.
      * intros k Hk. rewrite lookup_insert_ne; [done|]. intros Heq. by eapply Hk.
      * by intros [|].
Qed.

(** A named lookup on an instance with a cached default. *)
Lemma X9_witness :
  schemas (w_kk (Scenario.after (_preferSchema VUndefined (Some login_t)) Scenario.w_default)) =
    schemas (w_kk Scenario.w_default) /\
  defaultSchemasCache
    (w_kk (Scenario.after (_preferSchema VUndefined (Some login_t)) Scenario.w_default))
    !! "auth" = defaultSchemasCache (w_kk Scenario.w_default) !! "auth".
Proof.
  destruct (X9_preferSchema_frame VUndefined (Some login_t) Scenario.w_default
              (Return (VRef 0))
              (Scenario.after (_preferSchema VUndefined (Some login_t)) Scenario.w_default)
              eq_refl) as (Hs & _ & _ & _ & _ & Hc & _).
  split; [exact Hs|]. apply Hc. intros t [= <-]. discriminate.
Defined.

(** * Further properties of the options *)

(** X1: what [normalizeOption] leaves in the option object [x] it is given
    (the empty object when the argument is missing).  On a hook property
    that can be written, a function is kept and any other value is replaced
    by [undefined]; a [throwUnauthorizedError] that can be written is kept
    when truthy and replaced by [true] when falsy; a property that cannot be
    written keeps its value.  Normalizing twice is normalizing once. *)
Theorem X1_normalizeOption_hooks o :
  let x := default (mkOption VUndefined VUndefined VUndefined) o in
  let kept_hook k g :=
    if bool_decide (k ∈ readonly x) then g
    else if bool_decide (typeof g = TyFunction) then g else VUndefined in
  normalizeOption (Some (normalizeOption o)) = normalizeOption o /\
  globalLoginResponse (normalizeOption o) =
    kept_hook "globalLoginResponse" (globalLoginResponse x) /\
  globalAuthResponse (normalizeOption o) =
    kept_hook "globalAuthResponse" (globalAuthResponse x) /\
  throwUnauthorizedError (normalizeOption o) =
    (if bool_decide ("throwUnauthorizedError" ∈ readonly x) then throwUnauthorizedError x
     else if truthy (throwUnauthorizedError x) then throwUnauthorizedError x
          else VBool true).
Proof.
  assert (forall g, normalize_response g =
                    if bool_decide (typeof g = TyFunction) then g else VUndefined)
    as Hn.
  { intros g. unfold normalize_response.
    destruct g; simpl; by rewrite ?andb_false_r. }
  assert (forall g, normalize_response (normalize_response g) = normalize_response g)
    as Hidem.
  { intros g. rewrite !Hn. by destruct g. }
  assert (forall t, js_or (js_or t (VBool true)) (VBool true) = js_or t (VBool true))
    as Hor.
  { intros t. unfold js_or. by destruct (truthy t) eqn:E; rewrite ?E. }
  intros x kept_hook. unfold kept_hook.
  replace (normalizeOption o) with (normalizeOption (Some x)) by by destruct o.
  rewrite <- !Hn. split; [|done].
  unfold normalizeOption, assign; simpl.
  destruct (bool_decide ("throwUnauthorizedError" ∈ readonly x)),
    (bool_decide ("globalLoginResponse" ∈ readonly x)),
    (bool_decide ("globalAuthResponse" ∈ readonly x));
    by rewrite ?Hidem, ?Hor.
Qed.

(** A frozen option object [{throwUnauthorizedError: false}] keeps its
    value: the stored option is [false], and the login middleware of a schema
    whose login fails then ends with [next()], the error left on the
    request. *)
Lemma frozen_option_stays_false :
  let o := mkOptionObject VUndefined VUndefined (VBool false)
             ["globalLoginResponse"; "globalAuthResponse"; "throwUnauthorizedError"] in
  let w := Scenario.after (enable (VStr "A") 0 (VBool true) VNull)
             (Scenario.fresh (Some o) [Scenario.login_schema 1]) in
  throwUnauthorizedError (options (w_kk w)) = VBool false /\
  (middleware Scenario.impl login_t "login" VUndefined w).1.1 = Next /\
  unauthorizedError (w_req (middleware Scenario.impl login_t "login" VUndefined w).2) =
    VRef 1.
Proof. vm_compute. repeat split; congruence. Qed.

(** * Further properties of the middleware *)


Lemma on_error_unauthorized schema e w :
  instanceof_UnauthorizedError (w_heap w) e = true ->
  on_error schema e w =
  (if truthy (throwUnauthorizedError (options (w_kk w)))
   then NextWith (unauthorizedError (w_req w)) else Next, w).
Proof.
  intros Hi. unfold on_error. rewrite Hi.
  by destruct (truthy (throwUnauthorizedError (options (w_kk w)))).
Qed.






(** X12: an [UnauthorizedError] thrown in the [try] block is not stored.
    When the [try] block throws an instance of [UnauthorizedError], the
    [catch] block leaves the request as it is: the world after the run is
    the world at the throw.  [next] is then called with what
    [req.unauthorizedError] holds at that time (the thrown error only if the
    code that threw it had stored it there) when the stored option
    [throwUnauthorizedError] is truthy, and with no argument when it is
    falsy. *)
Theorem X12_thrown_error_not_stored impl type method schema w s w0 e w2 :
  resolve type schema w = (Return s, w0) ->
  dispatch impl type method s w0 = (Throw e, w2) ->
  instanceof_UnauthorizedError (w_heap w2) e = true ->
  middleware impl type method schema w =
  (if truthy (throwUnauthorizedError (options (w_kk w)))
   then NextWith (unauthorizedError (w_req w2)) else Next,
   s, w2).
Proof.
  intros Hr Hd Hi. unfold middleware. rewrite Hr, Hd.
  rewrite on_error_unauthorized by done.
  apply keeps_dispatch in Hd. apply keeps_resolve in Hr. by rewrite Hd, Hr.
Qed.

(** The login method ends the response: the engine throws the error
    "don't end res in schema", and [next] is called with [undefined]. *)
Lemma X12_witness :
  middleware Scenario.impl login_t "login" VUndefined Scenario.w_ends =
  (NextWith VUndefined, VRef 0,
   Scenario.after (dispatch Scenario.impl login_t "login" (VRef 0))
     (Scenario.after (resolve login_t VUndefined) Scenario.w_ends)).
Proof.
  exact (X12_thrown_error_not_stored Scenario.impl login_t "login" VUndefined
           Scenario.w_ends (VRef 0)
           (Scenario.after (resolve login_t VUndefined) Scenario.w_ends)
           (Thrown (VRef 1))
           (Scenario.after (dispatch Scenario.impl login_t "login" (VRef 0))
              (Scenario.after (resolve login_t VUndefined) Scenario.w_ends))
           eq_refl eq_refl eq_refl).
Defined.

(** X13: a method that is not a required method is called directly.  When
    [schema[method]] is a function other than the schema's [knockLogin] and
    [knockAuth], the middleware calls it and nothing else: no hook, no look
    at [res.headersSent], no demand that [req.user] be set.  If it returns
    and [req.unauthorizedError] is falsy, the middleware ends with
    [next()]. *)
Theorem X13_auxiliary_method_direct impl type method schema w s w0 f r rq rs h :
  resolve type schema w = (Return s, w0) ->
  truthy s = true ->
  get_prop (w_heap w0) s method = Return (VFun f) ->
  isInterfaceMethod s method w0 = (Return false, w0) ->
  impl f s (w_req w0, w_res w0, w_heap w0) = (Return r, (rq, rs, h)) ->
  truthy (unauthorizedError rq) = false ->
  middleware impl type method schema w = (Next, s, mkWorld (w_kk w0) rq rs h).
Proof.
  intros Hr Hs Hm Him Hi He. unfold middleware. rewrite Hr.
  assert (dispatch impl type method s w0 = (Return tt, mkWorld (w_kk w0) rq rs h)) as ->;
    [|done].
  unfold dispatch. rewrite Hs.
  erewrite bind_returned; [|unfold liftC; by rewrite Hm].
  simpl. erewrite bind_returned; [|reflexivity].
  erewrite bind_returned; [|exact Him].
  erewrite bind_returned; [|].
  2:{ erewrite bind_returned; [|unfold liftC; by rewrite Hm].
      erewrite bind_returned; [|unfold call; by rewrite Hi]. reflexivity. }
  erewrite bind_returned; [|reflexivity]. simpl. by rewrite He.
Qed.

(** [kk.revoke()] on an instance with a default login schema ["A"] and a
    default auth schema ["B"] whose [revoke] method does nothing. *)
Lemma X13_witness :
  middleware Scenario.impl auth_t "revoke" VUndefined Plugins.w_revoke =
  (Next, VRef 1,
   mkWorld (w_kk (Scenario.after (resolve auth_t VUndefined) Plugins.w_revoke))
           Scenario.req0 Scenario.res0 (w_heap Plugins.w_revoke)).
Proof.
  exact (X13_auxiliary_method_direct Scenario.impl auth_t "revoke" VUndefined
           Plugins.w_revoke (VRef 1)
           (Scenario.after (resolve auth_t VUndefined) Plugins.w_revoke)
           2 VUndefined Scenario.req0 Scenario.res0 (w_heap Plugins.w_revoke)
           eq_refl eq_refl eq_refl eq_refl eq_refl eq_refl).
Defined.

(** The part of the [try] block that follows a run of the engine. *)
Lemma dispatch_engine impl type method s w0 m r w1 :
  truthy s = true ->
  get_prop (w_heap w0) s method = Return m ->
  typeof m = TyFunction ->
  isInterfaceMethod s method w0 = (Return true, w0) ->
  _manual impl s type w0 = (Return r, w1) ->
  truthy (user (w_req w1)) = true \/ truthy (unauthorizedError (w_req w1)) = true ->
  dispatch impl type method s w0 =
  if truthy (unauthorizedError (w_req w1))
  then (Throw (Thrown (unauthorizedError (w_req w1))), w1)
  else (Return tt, w1).
Proof.
  intros Hs Hm Hty Him Hman Hset.
  pose proof (manual_returns_undefined _ _ _ _ _ _ Hman) as ->.
  unfold dispatch. rewrite Hs.
  erewrite bind_returned; [|unfold liftC; by rewrite Hm].
  rewrite bool_decide_true by done. simpl.
  erewrite bind_returned; [|reflexivity].
  erewrite bind_returned; [|exact Him].
  erewrite bind_returned; [|].
  2:{ erewrite bind_returned; [|exact Hman].
      erewrite bind_returned; [|reflexivity].
      erewrite bind_returned; [|reflexivity].
      unfold js_or; simpl.
      assert (negb (truthy (user (w_req w1))) &&
              negb (truthy (unauthorizedError (w_req w1))) = false) as ->.
      { destruct Hset as [-> | ->]; [done|]. apply andb_false_r. }
      reflexivity. }
  erewrite bind_returned; [|reflexivity].
  by destruct (truthy (unauthorizedError (w_req w1))).
Qed.

(** X14: how a run of the engine that returns decides the outcome.  When the
    middleware is routed through the engine and the engine returns: if
    [req.unauthorizedError] is falsy and [req.user] is truthy, the
    middleware ends with [next()] and leaves the world as the engine left
    it; if [req.unauthorizedError] holds an [UnauthorizedError] and the
    stored option [throwUnauthorizedError] is truthy, the middleware ends
    with [next] called on that error, whether or not [req.user] is set. *)
Theorem X14_engine_outcome impl type method schema w s w0 m r w1 :
  resolve type schema w = (Return s, w0) ->
  truthy s = true ->
  get_prop (w_heap w0) s method = Return m ->
  typeof m = TyFunction ->
  isInterfaceMethod s method w0 = (Return true, w0) ->
  _manual impl s type w0 = (Return r, w1) ->
  (truthy (user (w_req w1)) = true ->
   truthy (unauthorizedError (w_req w1)) = false ->
   middleware impl type method schema w = (Next, s, w1)) /\
  (truthy (throwUnauthorizedError (options (w_kk w))) = true ->
   instanceof_UnauthorizedError (w_heap w1) (Thrown (unauthorizedError (w_req w1))) = true ->
   middleware impl type method schema w =
   (NextWith (unauthorizedError (w_req w1)), s, w1)).
Proof.
  intros Hr Hs Hm Hty Him Hman. split.
  - intros Hu He. unfold middleware. rewrite Hr.
    rewrite (dispatch_engine _ _ _ _ _ _ _ _ Hs Hm Hty Him Hman) by by left.
    by rewrite He.
  - intros Ho Hi.
    assert (truthy (unauthorizedError (w_req w1)) = true) as He.
    { simpl in Hi. by destruct (unauthorizedError (w_req w1)). }
    unfold middleware. rewrite Hr.
    rewrite (dispatch_engine _ _ _ _ _ _ _ _ Hs Hm Hty Him Hman) by by right.
    rewrite He. rewrite on_error_unauthorized by done.
    apply keeps_manual in Hman. apply keeps_resolve in Hr.
    by rewrite Hman, Hr, Ho.
Qed.

(** A login that succeeds, and a login that fails, each on an instance
    built without options. *)
Lemma X14_witness :
  middleware Scenario.impl login_t "login" VUndefined Scenario.w_default =
    (Next, VRef 0,
     Scenario.after (_manual Scenario.impl (VRef 0) login_t)
       (Scenario.after (resolve login_t VUndefined) Scenario.w_default)) /\
  middleware Scenario.impl login_t "login" VUndefined Plugins.w_rejecting =
    (NextWith (VRef 1), VRef 0,
     Scenario.after (_manual Scenario.impl (VRef 0) login_t)
       (Scenario.after (resolve login_t VUndefined) Plugins.w_rejecting)).
Proof.
  split.
  - apply (proj1 (X14_engine_outcome Scenario.impl login_t "login" VUndefined
             Scenario.w_default (VRef 0)
             (Scenario.after (resolve login_t VUndefined) Scenario.w_default)
             (VFun 0) VUndefined
             (Scenario.after (_manual Scenario.impl (VRef 0) login_t)
                (Scenario.after (resolve login_t VUndefined) Scenario.w_default))
             eq_refl eq_refl eq_refl eq_refl eq_refl eq_refl));
      reflexivity.
  - apply (proj2 (X14_engine_outcome Scenario.impl login_t "login" VUndefined
             Plugins.w_rejecting (VRef 0)
             (Scenario.after (resolve login_t VUndefined) Plugins.w_rejecting)
             (VFun 1) VUndefined
             (Scenario.after (_manual Scenario.impl (VRef 0) login_t)
                (Scenario.after (resolve login_t VUndefined) Plugins.w_rejecting))
             eq_refl eq_refl eq_refl eq_refl eq_refl eq_refl));
      reflexivity.
Defined.

Lemma knock_established impl schema type w u w1 :
  knock impl schema type w = (Return u, w1) ->
  (truthy u = true -> typeof u = TyObject /\ user (w_req w1) = u) /\
  (truthy u = false -> truthy (user (w_req w1)) = false).
Proof.
  unfold knock. intros H.
  apply bind_Return in H as (f & wa & _ & H).
  apply bind_Return in H as (r & wb & _ & H).
  apply bind_Return in H as (ru & wc & Hg & H).
  injection Hg as <- <-.
  unfold setUser in H. set (v := js_or r (user (w_req wb))) in *.
  destruct (truthy v) eqn:Hv.
  - unfold bind, new, alloc, set_req, modify, ret in H.
    destruct (bool_decide (typeof v = TyObject)) eqn:Hty; simpl in H;
      injection H as <- <-; simpl.
    + apply bool_decide_eq_true in Hty. split; [done|]. by rewrite Hv.
    + split; [done|]. discriminate.
  - injection H as <- <-. split; [by rewrite Hv|]. intros _.
    unfold v, js_or in Hv. destruct (truthy r) eqn:Er; [congruence|done].
Qed.

(** X15: the user the engine establishes is an object.  Whenever the first
    statement of [login] or [auth] returns a truthy value, that value is an
    object and [req.user] holds it; when it returns a falsy value,
    [req.user] is falsy as well. *)
Theorem X15_established_user_is_object impl schema type w u w1 :
  knock impl schema type w = (Return u, w1) ->
  (truthy u = true -> typeof u = TyObject /\ user (w_req w1) = u) /\
  (truthy u = false -> truthy (user (w_req w1)) = false).
Proof. apply knock_established. Qed.

(** A login method that returns the string ["alice"]. *)
Lemma X15_witness :
  typeof (VRef 1) = TyObject /\
  user (w_req (Scenario.after (knock Scenario.impl (VRef 0) login_t) Scenario.w_default)) =
    VRef 1.
Proof.
  apply (proj1 (X15_established_user_is_object Scenario.impl (VRef 0) login_t
                  Scenario.w_default (VRef 1)
                  (Scenario.after (knock Scenario.impl (VRef 0) login_t) Scenario.w_default)
                  eq_refl)).
  reflexivity.
Defined.

(** X16: what a factory called with a name resolves.  With a registered
    name, the factory resolves the named schema if it has the required
    method of the factory's type; if it has not, the factory resolves
    nothing, exactly as when it is called without a name, and the
    middleware will infer a schema from the request.  Nothing is changed by
    the call. *)
Theorem X16_factory_named type method name s w :
  truthy name = true ->
  Map_get (schemas (w_kk w)) name = VRef s ->
  (callable (w_heap w) s (schemaInterface.interface type) = true ->
   factory type method name w = (Return (VRef s), w)) /\
  (callable (w_heap w) s (schemaInterface.interface type) = false ->
   factory type method name w = (Return VUndefined, w) /\
   factory type method name w = factory type method VUndefined w).
Proof.
  intros Hn Hg.
  assert (factory type method name w =
          (Return (if callable (w_heap w) s (schemaInterface.interface type)
                   then VRef s else VUndefined), w)) as ->.
  { unfold factory. rewrite Hn. by apply preferSchema_registered_name. }
  split; intros ->; done.
Qed.

(** [kk.login("A")] with the login schema ["A"], and [kk.login("B")] with
    the auth schema ["B"]. *)
Lemma X16_witness :
  factory login_t "login" (VStr "A") Plugins.w_mixed = (Return (VRef 0), Plugins.w_mixed) /\
  factory login_t "login" (VStr "B") Plugins.w_mixed = (Return VUndefined, Plugins.w_mixed) /\
  factory login_t "login" (VStr "B") Plugins.w_mixed =
    factory login_t "login" VUndefined Plugins.w_mixed.
Proof.
  split.
  - exact (proj1 (X16_factory_named login_t "login" (VStr "A") 0 Plugins.w_mixed
                    eq_refl eq_refl) eq_refl).
  - exact (proj2 (X16_factory_named login_t "login" (VStr "B") 1 Plugins.w_mixed
                    eq_refl eq_refl) eq_refl).
Defined.






(** The statements of [login] after the "set user" statement and the check
    of [res.headersSent]. *)
Lemma login_after_knock impl schema w u w1 :
  valid (w_kk w) (w_heap w) = Return true ->
  knock impl schema login_t w = (Return u, w1) ->
  truthy (headersSent (w_res w1)) = false ->
  login impl schema w =
  (do! when (truthy u && negb (truthy (unauthorizedError (w_req w1))))
         (let! p := gets (fun w =>
            _getParamFromReq (w_req w) (schemaInterface.interface auth_t)) in
          let! a := _preferSchema p (Some auth_t) in
          if truthy a then call_hook impl a "create" else ret tt) in
   do! call_hook impl schema "loginResponse" in
   do! call_global impl globalLoginResponse schema in
   ret VUndefined) w1.
Proof.
  intros Hv Hk Hh. rewrite (login_starts_with_knock _ _ _ Hv).
  erewrite bind_returned; [|exact Hk].
  erewrite bind_returned; [|unfold check_headersSent, bind, gets; by rewrite Hh].
  erewrite bind_returned; [|reflexivity]. reflexivity.
Qed.

(** X19: a failed login still runs the response hooks.  When the login
    method leaves no user, or leaves [req.unauthorizedError] set, [login]
    skips the creation of a session by an auth schema (the resolver is not
    consulted) and goes on with the schema's [loginResponse] hook and the
    global login response hook, as after a successful login. *)
Theorem X19_hooks_after_failed_login impl schema w u w1 :
  valid (w_kk w) (w_heap w) = Return true ->
  knock impl schema login_t w = (Return u, w1) ->
  truthy (headersSent (w_res w1)) = false ->
  truthy u = false \/ truthy (unauthorizedError (w_req w1)) = true ->
  login impl schema w =
  (do! call_hook impl schema "loginResponse" in
   do! call_global impl globalLoginResponse schema in
   ret VUndefined) w1.
Proof.
  intros Hv Hk Hh Hfail. rewrite (login_after_knock _ _ _ _ _ Hv Hk Hh).
  assert (truthy u && negb (truthy (unauthorizedError (w_req w1))) = false) as ->.
  { destruct Hfail as [-> | ->]; [done|]. apply andb_false_r. }
  simpl. erewrite bind_returned; [|reflexivity]. reflexivity.
Qed.

(** A login that fails, with a [loginResponse] hook: the hook runs (it sets
    [req.user] to a new object). *)
Lemma X19_witness :
  login Scenario.impl (VRef 0) Plugins.w_failing =
    (do! call_hook Scenario.impl (VRef 0) "loginResponse" in
     do! call_global Scenario.impl globalLoginResponse (VRef 0) in
     ret VUndefined)
      (Scenario.after (knock Scenario.impl (VRef 0) login_t) Plugins.w_failing) /\
  user (w_req (Scenario.after (login Scenario.impl (VRef 0)) Plugins.w_failing)) = VRef 2.
Proof.
  split; [|reflexivity].
  apply (X19_hooks_after_failed_login Scenario.impl (VRef 0) Plugins.w_failing
           VUndefined
           (Scenario.after (knock Scenario.impl (VRef 0) login_t) Plugins.w_failing)
           eq_refl eq_refl eq_refl).
  right. reflexivity.
Defined.

(** X20: a login that succeeds on a request whose [knockAuth] parameter
    names no registered schema.  After the user has been established,
    [login] looks for the auth schema that creates the session; with a
    truthy [knockAuth] parameter that is not a registered name, the
    resolver throws a [TypeError] and [login] ends there, the user still
    set on the request: the response hooks are not run. *)
Theorem X20_login_unregistered_auth impl schema w u w1 :
  valid (w_kk w) (w_heap w) = Return true ->
  knock impl schema login_t w = (Return u, w1) ->
  truthy (headersSent (w_res w1)) = false ->
  truthy u = true ->
  truthy (unauthorizedError (w_req w1)) = false ->
  truthy (_getParamFromReq (w_req w1) "knockAuth") = true ->
  Map_get (schemas (w_kk w1)) (_getParamFromReq (w_req w1) "knockAuth") = VUndefined ->
  login impl schema w = (Throw TypeError, w1) /\ user (w_req w1) = u.
Proof.
  intros Hv Hk Hh Hu He Hp Hg. split.
  - rewrite (login_after_knock _ _ _ _ _ Hv Hk Hh). rewrite Hu, He. simpl.
    erewrite bind_thrown; [reflexivity|].
    erewrite bind_returned; [|reflexivity].
    erewrite bind_thrown; [reflexivity|].
    unfold _preferSchema, bind, gets, liftC. by rewrite Hp, Hg.
  - by apply (knock_established _ _ _ _ _ _ Hk).
Qed.

(** A login that succeeds on a request with the query parameter
    [knockAuth=ghost]. *)
Lemma X20_witness :
  login Scenario.impl (VRef 0)
    (Scenario.arrive (mkReq ∅ {[ "knockAuth" := VStr "ghost" ]} ∅ ∅ VUndefined VUndefined)
                     Scenario.w_default) =
    (Throw TypeError,
     Scenario.after (knock Scenario.impl (VRef 0) login_t)
       (Scenario.arrive (mkReq ∅ {[ "knockAuth" := VStr "ghost" ]} ∅ ∅ VUndefined VUndefined)
                        Scenario.w_default)) /\
  user (w_req
    (Scenario.after (knock Scenario.impl (VRef 0) login_t)
       (Scenario.arrive (mkReq ∅ {[ "knockAuth" := VStr "ghost" ]} ∅ ∅ VUndefined VUndefined)
                        Scenario.w_default))) = VRef 1.
Proof.
  exact (X20_login_unregistered_auth Scenario.impl (VRef 0)
           (Scenario.arrive (mkReq ∅ {[ "knockAuth" := VStr "ghost" ]} ∅ ∅ VUndefined VUndefined)
                            Scenario.w_default)
           (VRef 1)
           (Scenario.after (knock Scenario.impl (VRef 0) login_t)
              (Scenario.arrive
                 (mkReq ∅ {[ "knockAuth" := VStr "ghost" ]} ∅ ∅ VUndefined VUndefined)
                 Scenario.w_default))
           eq_refl eq_refl eq_refl eq_refl eq_refl eq_refl eq_refl).
Defined.

(** * Memoization of the default schema *)

Lemma memo_le_refl k : memo_le k k.
Proof. by intros key. Qed.

Lemma memo_le_trans k1 k2 k3 : memo_le k1 k2 -> memo_le k2 k3 -> memo_le k1 k3.
Proof.
  intros H12 H23 key Ht. rewrite <- (H12 key Ht). apply H23.
  by rewrite (H12 key Ht).
Qed.

Create HintDb memo.

Lemma memo_ret {A} (a : A) : keeps_memo (ret a).
Proof. intros w c w' [= <- <-]. apply memo_le_refl. Qed.

Lemma memo_throw {A} e : keeps_memo (@throw A e).
Proof. intros w c w' [= <- <-]. apply memo_le_refl. Qed.

Lemma memo_gets {A} (f : World -> A) : keeps_memo (gets f).
Proof. intros w c w' [= <- <-]. apply memo_le_refl. Qed.

Lemma memo_liftC {A} (f : World -> Completion A) : keeps_memo (liftC f).
Proof. intros w c w' [= <- <-]. apply memo_le_refl. Qed.

Lemma memo_bind {A B} (m : M A) (k : A -> M B) :
  keeps_memo m -> (forall a, keeps_memo (k a)) -> keeps_memo (bind m k).
Proof.
  intros Hm Hk w c w'. unfold bind.
  destruct (m w) as [[a|e] w1] eqn:E.
  - intros H. apply Hk in H. apply Hm in E. by eapply memo_le_trans.
  - intros [= <- <-]. by apply Hm in E.
Qed.

Lemma memo_if {A} (b : bool) (m1 m2 : M A) :
  keeps_memo m1 -> keeps_memo m2 -> keeps_memo (if b then m1 else m2).
Proof. by destruct b. Qed.

Lemma memo_assert b : keeps_memo (assert b).
Proof. destruct b; [apply memo_ret|apply memo_throw]. Qed.

Lemma memo_set_req f : keeps_memo (set_req f).
Proof. intros w c w' [= <- <-]. apply memo_le_refl. Qed.

Lemma memo_set_heap f : keeps_memo (set_heap f).
Proof. intros w c w' [= <- <-]. apply memo_le_refl. Qed.

Lemma memo_new o : keeps_memo (new o).
Proof. intros w c w' [= <- <-]. apply memo_le_refl. Qed.

Lemma memo_call impl f a : keeps_memo (call impl f a).
Proof.
  intros w c w'. unfold call.
  destruct f; try (intros [= <- <-]; apply memo_le_refl).
  destruct (impl _ _ _) as [c' [[rq rs] h]]. intros [= <- <-]. apply memo_le_refl.
Qed.

(** The resolver writes a cache entry only where the cache holds nothing. *)
Lemma memo_preferSchema name type : keeps_memo (_preferSchema name type).
Proof.
  intros w c w'.
  unfold _preferSchema, bind, gets, liftC, ret, set_defaultSchemasCache, set_kk, modify.
  destruct (truthy name).
  - destruct type as [t|]; simpl.
    + destruct (schemaInterface.hasRequiredFunction _ _ _);
        intros [= <- <-]; apply memo_le_refl.
    + intros [= <- <-]. apply memo_le_refl.
  - destruct type as [t|]; simpl; [|intros [= <- <-]; apply memo_le_refl].
    destruct (truthy (field _ _)) eqn:Ec; simpl.
    + intros [= <- <-]. apply memo_le_refl.
    + destruct (find_default_values (w_heap w) t (schemas (w_kk w))) as [r ->].
      simpl. intros [= <- <-]. intros key Ht. simpl. unfold field.
      rewrite lookup_insert_ne; [done|]. intros <-. congruence.
Qed.

#[global] Hint Resolve memo_ret memo_throw memo_gets memo_liftC memo_assert
  memo_set_req memo_set_heap memo_new memo_call memo_preferSchema : memo.

Ltac memo :=
  repeat first
    [ progress auto with memo
    | apply memo_bind; [|intros ?]
    | apply memo_if
    | match goal with |- keeps_memo (match ?x with _ => _ end) => destruct x end ].

Lemma memo_manual impl schema type : keeps_memo (_manual impl schema type).
Proof.
  unfold _manual, login, auth, when, knock, setUser, check_headersSent,
    new_UnauthorizedError, call_hook, call_global.
  memo.
Qed.

Lemma memo_resolve type schema : keeps_memo (resolve type schema).
Proof. unfold resolve. memo. Qed.

Lemma memo_dispatch impl type method schema :
  keeps_memo (dispatch impl type method schema).
Proof.
  unfold dispatch, isInterfaceMethod, new_UnauthorizedError.
  pose proof (memo_manual impl schema type). memo.
Qed.

Lemma memo_on_error schema e w : w_kk (on_error schema e w).2 = w_kk w.
Proof.
  unfold on_error, alloc.
  destruct (instanceof_UnauthorizedError _ _); simpl;
    by destruct (truthy (throwUnauthorizedError _)).
Qed.

Lemma memo_middleware impl type method schema w :
  memo_le (w_kk w) (w_kk (middleware impl type method schema w).2).
Proof.
  unfold middleware.
  destruct (resolve type schema w) as [[s|e] w1] eqn:Hr; apply memo_resolve in Hr.
  - destruct (dispatch impl type method s w1) as [[[]|e] w2] eqn:Hd;
      apply memo_dispatch in Hd.
    + by eapply memo_le_trans.
    + pose proof (memo_on_error s e w2) as Hk.
      destruct (on_error s e w2) as [n w3]. simpl in *. rewrite Hk.
      by eapply memo_le_trans.
  - pose proof (memo_on_error schema e w1) as Hk.
    destruct (on_error schema e w1) as [n w3]. simpl in *. by rewrite Hk.
Qed.

Lemma memo_run_op impl op w : memo_le (w_kk w) (w_kk (run_op impl op w)).
Proof.
  destruct op; simpl.
  - destruct (_preferSchema name type w) as [c w'] eqn:E.
    by apply memo_preferSchema in E.
  - unfold factory. destruct (truthy schemaName); [|apply memo_le_refl].
    destruct (_preferSchema schemaName (Some type) w) as [c w'] eqn:E.
    by apply memo_preferSchema in E.
  - apply (memo_middleware impl type method schema (mkWorld (w_kk w) req res (w_heap w))).
  - apply memo_le_refl.
  - apply memo_le_refl.
Qed.

Lemma memo_run_ops impl ops w : memo_le (w_kk w) (w_kk (run_ops impl ops w)).
Proof.
  unfold run_ops. revert w. induction ops as [|op ops IH]; intros w; simpl.
  - apply memo_le_refl.
  - eapply memo_le_trans; [apply memo_run_op|apply IH].
Qed.

(** A resolution without a name answers from the cache when the cache holds
    a schema, and changes nothing. *)
Lemma preferSchema_memo_hit name type w :
  truthy name = false ->
  truthy (field (defaultSchemasCache (w_kk w)) (schemaInterface.type_key type)) = true ->
  _preferSchema name (Some type) w =
  (Return (field (defaultSchemasCache (w_kk w)) (schemaInterface.type_key type)), w).
Proof.
  intros Hn Hc. unfold _preferSchema, bind, gets, ret. by rewrite Hn, Hc.
Qed.

(** A resolution without a name returns what the cache holds afterwards;
    where the cache held nothing it returns the result of the search. *)
Lemma preferSchema_default name type w :
  truthy name = false ->
  exists r w1,
    _preferSchema name (Some type) w = (Return r, w1) /\
    field (defaultSchemasCache (w_kk w1)) (schemaInterface.type_key type) = r /\
    (truthy (field (defaultSchemasCache (w_kk w)) (schemaInterface.type_key type)) = false ->
     js_find (is_default_for (w_heap w) type) (Map_values (schemas (w_kk w))) = Return r).
Proof.
  intros Hn.
  destruct (truthy (field (defaultSchemasCache (w_kk w))
                          (schemaInterface.type_key type))) eqn:Hc.
  - eexists _, _. split; [by apply preferSchema_memo_hit|]. by split.
  - unfold _preferSchema. rewrite Hn.
    unfold bind, gets, liftC, ret, set_defaultSchemasCache, set_kk, modify.
    rewrite Hc. simpl.
    destruct (find_default_values (w_heap w) type (schemas (w_kk w))) as [r Hr].
    rewrite Hr. simpl.
    assert (field (<[schemaInterface.type_key type := r]>
                     (defaultSchemasCache (w_kk w)))
                  (schemaInterface.type_key type) = r) as Hf.
    { unfold field. by rewrite lookup_insert_eq. }
    rewrite Hf. eexists _, _. split; [reflexivity|]. simpl. by split.
Qed.

(** What [disable] does, in full. *)
Lemma disable_effect name w :
  disable name w =
  if truthy name
  then (Return tt,
        mkWorld (mkKnockKnock (Map_delete (schemas (w_kk w)) name) ∅ (options (w_kk w)))
                (w_req w) (w_res w) (w_heap w))
  else (Throw AssertionError, w).
Proof.
  unfold disable, bind, set_schemas, set_defaultSchemasCache, set_kk, modify,
    assert, ret, throw.
  by destruct (truthy name).
Qed.

(** C5, counterexample to the property as stated: the instance has one
    schema, a default with a login method only.  A resolution for [auth]
    returns [undefined]; the program then gives the schema object a
    [knockAuth] method, with no call of [enable] or [disable]; the next
    resolution for [auth] returns the schema.  An answer [undefined] is not
    memoized. *)
Lemma C5_undefined_is_not_memoized :
  let w1 := Scenario.after (_preferSchema VUndefined (Some auth_t)) Scenario.w_default in
  let w2 := run_ops Scenario.impl [OpWrite 0 "knockAuth" (VFun 0)] w1 in
  (_preferSchema VUndefined (Some auth_t) Scenario.w_default).1 = Return VUndefined /\
  schemas (w_kk w2) = schemas (w_kk Scenario.w_default) /\
  (_preferSchema VUndefined (Some auth_t) w2).1 = Return (VRef 0) /\
  Return (VRef 0) <> Return VUndefined.
Proof. vm_compute. repeat split; congruence. Qed.

(** C5, as the code has it.  A resolution without a name returns: where the
    cache holds nothing for the type, the first stored schema, in the order
    of the registry, whose default flag is truthy and which has the required
    method, or [undefined] when there is none.  Once it has returned a
    schema, every later resolution without a name for that type returns the
    identical reference and changes nothing, whatever the program does in
    between other than [enable] and [disable]: resolutions, factory calls,
    middleware runs, writes to schema objects.  Every call of [enable] or
    [disable] whose name passes the assertion empties the cache, whatever
    the registry holds before and after; a call whose name fails the
    assertion changes nothing. *)
Theorem C5_default_memo_and_invalidation impl (name : JsVal) (type : CapType) (w : World) :
  truthy name = false ->
  (exists r w1,
     _preferSchema name (Some type) w = (Return r, w1) /\
     (truthy (field (defaultSchemasCache (w_kk w)) (schemaInterface.type_key type)) = false ->
      (r = VUndefined /\
       forall k s, (k, s) ∈ schemas (w_kk w) -> qualifies (w_heap w) type s = false) \/
      (exists pre k s post,
         schemas (w_kk w) = pre ++ (k, s) :: post /\
         r = VRef s /\
         qualifies (w_heap w) type s = true /\
         forall k' s', (k', s') ∈ pre -> qualifies (w_heap w) type s' = false)) /\
     (truthy r = true ->
      forall ops name', truthy name' = false ->
        _preferSchema name' (Some type) (run_ops impl ops w1) =
        (Return r, run_ops impl ops w1))) /\
  (forall n s d v,
     let nm := if usable_name n then n else obj_prop (w_heap w) s "name" in
     (truthy nm = true ->
      exists w', enable n s d v w = (Return tt, w') /\
                 defaultSchemasCache (w_kk w') = ∅) /\
     (truthy nm = false -> enable n s d v w = (Throw AssertionError, w))) /\
  (forall n,
     (truthy n = true ->
      exists w', disable n w = (Return tt, w') /\
                 defaultSchemasCache (w_kk w') = ∅) /\
     (truthy n = false -> disable n w = (Throw AssertionError, w))).
Proof.
  intros Hn. split; [|split].
  - destruct (preferSchema_default name type w Hn) as (r & w1 & Hp & Hf & Hfind).
    exists r, w1. split; [exact Hp|]. split.
    + intros Hc. specialize (Hfind Hc).
      destruct (find_default_first (w_heap w) type (schemas (w_kk w)))
        as [[Hr Hall]|(pre & k & s & post & Hm & Hr & Hq & Hpre)];
        rewrite Hr in Hfind; injection Hfind as <-.
      * left. by split.
      * right. by exists pre, k, s, post.
    + intros Ht ops name' Hn'.
      pose proof (memo_run_ops impl ops w1 (schemaInterface.type_key type)) as Hle.
      rewrite Hf in Hle. specialize (Hle Ht).
      rewrite preferSchema_memo_hit; [by rewrite Hle|done|by rewrite Hle].
  - intros n s d v nm. rewrite enable_effect. fold nm.
    split; intros ->; [|done]. by eexists.
  - intros n. rewrite disable_effect. split; intros ->; [|done]. by eexists.
Qed.

(** On the instance with the default login schema ["A"]: the first
    resolution finds ["A"]; after a resolution for [auth], a write that
    clears the default flag of ["A"], a write that removes its login method
    and a run of the login middleware, the resolution still returns ["A"].
    [enable("A", ...)] and [disable("A")] empty the cache; [enable] without a
    name of a schema without a name, and [disable(undefined)], change
    nothing. *)
Lemma C5_witness :
  _preferSchema VUndefined (Some login_t) Scenario.w_default =
    (Return (VRef 0),
     Scenario.after (_preferSchema VUndefined (Some login_t)) Scenario.w_default) /\
  _preferSchema VUndefined (Some login_t)
    (run_ops Scenario.impl
       [OpPreferSchema VUndefined (Some auth_t);
        OpWriteDefault 0 (VBool false);
        OpWrite 0 "knockLogin" VUndefined;
        OpRequest login_t "login" VUndefined Scenario.req0 Scenario.res0]
       (Scenario.after (_preferSchema VUndefined (Some login_t)) Scenario.w_default)) =
    (Return (VRef 0),
     run_ops Scenario.impl
       [OpPreferSchema VUndefined (Some auth_t);
        OpWriteDefault 0 (VBool false);
        OpWrite 0 "knockLogin" VUndefined;
        OpRequest login_t "login" VUndefined Scenario.req0 Scenario.res0]
       (Scenario.after (_preferSchema VUndefined (Some login_t)) Scenario.w_default)) /\
  (exists w', enable (VStr "A") 0 (VBool true) VNull Scenario.w_default = (Return tt, w') /\
              defaultSchemasCache (w_kk w') = ∅) /\
  enable VUndefined 0 (VBool true) VNull (Scenario.fresh None [Scenario.login_schema 0]) =
    (Throw AssertionError, Scenario.fresh None [Scenario.login_schema 0]) /\
  (exists w', disable (VStr "A") Scenario.w_default = (Return tt, w') /\
              defaultSchemasCache (w_kk w') = ∅) /\
  disable VUndefined Scenario.w_default = (Throw AssertionError, Scenario.w_default).
Proof.
  destruct (C5_default_memo_and_invalidation Scenario.impl VUndefined login_t
              Scenario.w_default eq_refl)
    as ((r & w1 & Hp & _ & Hmemo) & Hen & Hdis).
  pose proof (eq_refl :
    _preferSchema VUndefined (Some login_t) Scenario.w_default =
    (Return (VRef 0),
     Scenario.after (_preferSchema VUndefined (Some login_t)) Scenario.w_default)) as Hc.
  rewrite Hc in Hp. injection Hp as <- <-.
  split; [exact Hc|]. split; [exact (Hmemo eq_refl _ VUndefined eq_refl)|].
  destruct (Hen (VStr "A") 0 (VBool true) VNull) as [Hen1 _].
  split; [exact (Hen1 eq_refl)|].
  split.
  - destruct (C5_default_memo_and_invalidation Scenario.impl VUndefined login_t
                (Scenario.fresh None [Scenario.login_schema 0]) eq_refl)
      as (_ & Hen2 & _).
    destruct (Hen2 VUndefined 0 (VBool true) VNull) as [_ Hen3].
    exact (Hen3 eq_refl).
  - split; [exact (proj1 (Hdis (VStr "A")) eq_refl)|].
    exact (proj2 (Hdis VUndefined) eq_refl).
Defined.
